(** * obsidian-git: the backup cycle, its timer and its status bar

    A shallow embedding of [src/main.ts].

    - JavaScript strings are [string]s, numbers are integers ([Z]; [nat] for
      lengths), [undefined] is [None].
    - The plugin, its status bar, the host window (clock and timers), the
      notices, the console and the saved settings form one record [Env]: the
      state that the single JavaScript thread mutates.
    - An [async] method is a function [Env -> Step A]: it runs synchronously
      up to its next request to the git client, where it is suspended with
      its continuation, or it finishes with a resolved or rejected outcome.
    - What the plugin cannot decide is a parameter: the replies of the git
      client (a [Client]), and the host functions [Number], [moment().format]
      and [moment(t).fromNow] (a [Host]).

    The embedding covers the backup cycle and the pull cycle, the two
    commands, the message formatter, the interval field of the settings tab,
    the backup timer and the status bar; of [onload] it has the commands and
    the timers that it registers. *)

From Stdlib Require Import ZArith List String Ascii Bool Lia DecimalString.
Import ListNotations.
Open Scope string_scope.

(** ** The JavaScript string built-ins that the plugin calls *)

Module JS.

(** [s.indexOf(pat)]: the least position where [pat] starts, [None] for -1. *)
Fixpoint indexOf (pat s : string) : option nat :=
  if prefix pat s then Some 0
  else match s with
       | EmptyString => None
       | String _ s' => option_map S (indexOf pat s')
       end.

(** [s.includes(pat)]. *)
Definition includes (s pat : string) : bool :=
  match indexOf pat s with Some _ => true | None => false end.

(** [s.slice(0, n)]; on an ASCII string a character of the model is one
    UTF-16 code unit of the JavaScript string. *)
Definition slice0 (n : nat) (s : string) : string := substring 0 n s.

(** The tail of [s] from position [n] on. *)
Fixpoint drop (n : nat) (s : string) : string :=
  match n, s with
  | O, _ => s
  | S n', String _ s' => drop n' s'
  | S _, EmptyString => EmptyString
  end.

(** GetSubstitution of ECMAScript for a string pattern (no capture groups):
    in the replacement text [$$] stands for a dollar, [$&] for the match,
    [$`] for the text before it and [$'] for the text after it; every other
    character, a lone dollar included, stands for itself. *)
Fixpoint getSubstitution (matched preceding following replacement : string)
  : string :=
  match replacement with
  | EmptyString => EmptyString
  | String c tail =>
      if Ascii.eqb c "$" then
        match tail with
        | String d rest =>
            if Ascii.eqb d "$" then
              String "$" (getSubstitution matched preceding following rest)
            else if Ascii.eqb d "&" then
              matched ++ getSubstitution matched preceding following rest
            else if Ascii.eqb d "`" then
              preceding ++ getSubstitution matched preceding following rest
            else if Ascii.eqb d "'" then
              following ++ getSubstitution matched preceding following rest
            else String c (getSubstitution matched preceding following tail)
        | EmptyString => String c EmptyString
        end
      else String c (getSubstitution matched preceding following tail)
  end.

(** [s.replace(pat, replacement)] with a string pattern: only the first
    occurrence is rewritten. *)
Definition replace (s pat replacement : string) : string :=
  match indexOf pat s with
  | None => s
  | Some pos =>
      let preceding := substring 0 pos s in
      let following := drop (pos + length pat) s in
      preceding ++ getSubstitution pat preceding following replacement
                ++ following
  end.

Definition lowerChar (c : ascii) : ascii :=
  let n := nat_of_ascii c in
  if (65 <=? n)%nat && (n <=? 90)%nat then ascii_of_nat (n + 32) else c.

(** [s.toLowerCase()] on an ASCII string: the letters A to Z are lowered
    and every other character stands for itself. The built-in is aware of
    Unicode; on a string with other characters this function does not
    follow it, and what is stated of a lowered text is stated of ASCII
    strings ([isASCII]). *)
Fixpoint toLowerCase (s : string) : string :=
  match s with
  | EmptyString => EmptyString
  | String c s' => String (lowerChar c) (toLowerCase s')
  end.

(** Every character of [s] is an ASCII character. *)
Fixpoint isASCII (s : string) : bool :=
  match s with
  | EmptyString => true
  | String c s' => (nat_of_ascii c <? 128)%nat && isASCII s'
  end.

(** [String(n)] for a length and for an integer. *)
Definition String_of_nat (n : nat) : string :=
  NilEmpty.string_of_uint (Nat.to_uint n).

Definition String_of_Z (z : Z) : string :=
  NilEmpty.string_of_int (Z.to_int z).

End JS.

(** ** The data model *)

Module PluginState.
Inductive t := idle | status | pull | add | commit | push.
End PluginState.

Record ObsidianGitSettings := mkSettings {
  commitMessage : string;
  commitDateFormat : string;
  autoSaveInterval : Z;
  autoPullOnBoot : bool;
  autoPush : bool;
  disablePopups : bool;
  currentBranch : string;
  remote : string
}.

(** The field initialisers of [class ObsidianGitSettings]; the branch and the
    remote are resolved when the plugin loads. *)
Definition defaultSettings (branch rem : string) : ObsidianGitSettings :=
  {| commitMessage := "vault backup: {{date}}";
     commitDateFormat := "YYYY-MM-DD HH:mm:ss";
     autoSaveInterval := 0;
     autoPullOnBoot := false;
     autoPush := true;
     disablePopups := false;
     currentBranch := branch;
     remote := rem |}.

(** What the host does when a timer fires: the three closures that the
    plugin hands to [setTimeout] and [setInterval]. *)
Inductive Action :=
| ResetMessage      (* StatusBar.displayMessage: isDisplayingMessage = false *)
| RefreshStatusBar  (* onload: () => this.refreshStatusBar() *)
| RunBackup.        (* enableAutoBackup: async () => await this.createBackup() *)

Record Timer := mkTimer {
  tid : Z;
  due : Z;
  period : option Z;   (* [Some p] for setInterval, [None] for setTimeout *)
  action : Action
}.

(** The host window: a millisecond clock, the armed timers in the order they
    were armed, and the next timer handle. *)
Record Window := mkWindow {
  now : Z;
  timers : list Timer;
  nextId : Z
}.

Record StatusBarData := mkStatusBar {
  isDisplayingMessage : bool;
  text : string         (* what statusBarEl shows *)
}.

Record Env := mkEnv {
  state : PluginState.t;
  lastUpdate : option Z;
  intervalID : option Z;
  settings : ObsidianGitSettings;
  statusBar : StatusBarData;
  window : Window;
  notices : list string;   (* every [new Notice(..)], oldest first *)
  console : list string;   (* every [console.log(..)] *)
  saved : list ObsidianGitSettings  (* every [saveData(..)] *)
}.

(** The host functions that the plugin calls and does not define:
    [Number(value)] ([None] is NaN), [moment().format(spec)] at a given time
    and [moment(timestamp).fromNow()] at a given time. *)
Record Host := mkHost {
  Number : string -> option Z;
  momentFormat : string -> Z -> string;
  fromNow : Z -> Z -> string
}.

Definition with_state (st : PluginState.t) (e : Env) : Env :=
  mkEnv st (lastUpdate e) (intervalID e) (settings e) (statusBar e)
        (window e) (notices e) (console e) (saved e).

Definition with_lastUpdate (t : option Z) (e : Env) : Env :=
  mkEnv (state e) t (intervalID e) (settings e) (statusBar e)
        (window e) (notices e) (console e) (saved e).

Definition with_intervalID (i : option Z) (e : Env) : Env :=
  mkEnv (state e) (lastUpdate e) i (settings e) (statusBar e)
        (window e) (notices e) (console e) (saved e).

Definition with_settings (s : ObsidianGitSettings) (e : Env) : Env :=
  mkEnv (state e) (lastUpdate e) (intervalID e) s (statusBar e)
        (window e) (notices e) (console e) (saved e).

Definition with_statusBar (b : StatusBarData) (e : Env) : Env :=
  mkEnv (state e) (lastUpdate e) (intervalID e) (settings e) b
        (window e) (notices e) (console e) (saved e).

Definition with_window (w : Window) (e : Env) : Env :=
  mkEnv (state e) (lastUpdate e) (intervalID e) (settings e) (statusBar e)
        w (notices e) (console e) (saved e).

(** [new Notice(message)]. *)
Definition Notice (message : string) (e : Env) : Env :=
  mkEnv (state e) (lastUpdate e) (intervalID e) (settings e) (statusBar e)
        (window e) (notices e ++ [message]) (console e) (saved e).

Definition console_log (line : string) (e : Env) : Env :=
  mkEnv (state e) (lastUpdate e) (intervalID e) (settings e) (statusBar e)
        (window e) (notices e) (console e ++ [line]) (saved e).

(** [plugin.saveData(plugin.settings)]. *)
Definition saveData (e : Env) : Env :=
  mkEnv (state e) (lastUpdate e) (intervalID e) (settings e) (statusBar e)
        (window e) (notices e) (console e) (saved e ++ [settings e]).

(** [if (x)] on a number that may be undefined. *)
Definition truthy (x : option Z) : bool :=
  match x with
  | Some n => negb (n =? 0)%Z
  | None => false
  end.

(** ** The timers of the host window *)

Module Timers.

(** Timers never fire in the millisecond in which they are armed. *)
Definition delay_of (ms : Z) : Z := Z.max 1 ms.

Definition setTimeout (a : Action) (ms : Z) (w : Window) : Z * Window :=
  (nextId w,
   mkWindow (now w)
            (timers w ++ [mkTimer (nextId w) (now w + delay_of ms) None a])
            (nextId w + 1)).

Definition setInterval (a : Action) (ms : Z) (w : Window) : Z * Window :=
  (nextId w,
   mkWindow (now w)
            (timers w ++
               [mkTimer (nextId w) (now w + delay_of ms) (Some ms) a])
            (nextId w + 1)).

Definition clearInterval (id : Z) (w : Window) : Window :=
  mkWindow (now w)
           (filter (fun t => negb (tid t =? id)%Z) (timers w))
           (nextId w).

(** After timer [t] fired: a timeout is gone, an interval is due one period
    later. *)
Definition rearm (t : Timer) (w : Window) : Window :=
  mkWindow (now w)
           (flat_map
              (fun u =>
                 if (tid u =? tid t)%Z then
                   match period u with
                   | Some p => [mkTimer (tid u) (now w + delay_of p)
                                        (Some p) (action u)]
                   | None => []
                   end
                 else [u])
              (timers w))
           (nextId w).

Definition armed (id : Z) (w : Window) : bool :=
  existsb (fun u => (tid u =? id)%Z) (timers w).

Definition is_due (w : Window) (t : Timer) : bool := (due t <=? now w)%Z.

Definition elapse (w : Window) : Window :=
  mkWindow (now w + 1) (timers w) (nextId w).

End Timers.

(** ** class StatusBar *)

Module StatusBar.

Section WithHost.
Variable host : Host.

Definition displayMessage (message : string) (timeout : Z)
  (b : StatusBarData) (w : Window) : StatusBarData * Window :=
  let b' := mkStatusBar true ("git: " ++ JS.slice0 100 message) in
  if negb (timeout =? 0)%Z && (0 <? timeout)%Z then
    (b', snd (Timers.setTimeout ResetMessage timeout w))
  else (b', w).

Definition setText (s : string) (b : StatusBarData) : StatusBarData :=
  mkStatusBar (isDisplayingMessage b) s.

Definition displayFromNow (timestamp : option Z) (w : Window)
  (b : StatusBarData) : StatusBarData :=
  match timestamp with
  | Some t =>
      if truthy timestamp then
        setText ("git: last update " ++ fromNow host t (now w) ++ "..") b
      else setText "git: ready" b
  | None => setText "git: ready" b
  end.

Definition displayState (st : PluginState.t) (lastUpdate : option Z)
  (w : Window) (b : StatusBarData) : StatusBarData :=
  if isDisplayingMessage b then b
  else match st with
       | PluginState.idle => displayFromNow lastUpdate w b
       | PluginState.status => setText "git: checking repo status.." b
       | PluginState.add => setText "git: adding files to repo.." b
       | PluginState.commit => setText "git: committing changes.." b
       | PluginState.push => setText "git: pushing changes.." b
       | PluginState.pull => setText "git: pulling changes.." b
       end.

(** The closure armed by [displayMessage]. *)
Definition resetMessage (b : StatusBarData) : StatusBarData :=
  mkStatusBar false (text b).

End WithHost.

End StatusBar.

(** ** The git client and asynchronous code *)

(** The requests that the plugin sends to the git client (simple-git). *)
Inductive GitCall :=
| Status
| Add (files : string)
| Commit (message : string)
| Push (remoteName branch : string)
| Pull.

(** The reply to a request: the task succeeds with the file entries it
    reports (status: the change set; pull: the updated files; none for add,
    commit and push), or it fails with an error message. *)
Inductive Reply :=
| Ok (files : list string)
| Fail (message : string).

Definition Trace := list (GitCall * Reply).

(** A client decides each reply from the requests it has answered so far. *)
Definition Client := Trace -> GitCall -> Reply.

Inductive Outcome (A : Type) :=
| Resolved (a : A)
| Rejected (reason : string).
Arguments Resolved {A} a.
Arguments Rejected {A} reason.

Inductive Step (A : Type) :=
| Finished (r : Outcome A) (e : Env)
| Suspended (c : GitCall) (k : Reply -> Env -> Step A) (e : Env).
Arguments Finished {A} r e.
Arguments Suspended {A} c k e.

Definition Async (A : Type) := Env -> Step A.

Fixpoint bindStep {A B} (s : Step A) (f : A -> Async B) : Step B :=
  match s with
  | Finished (Resolved a) e => f a e
  | Finished (Rejected x) e => Finished (Rejected x) e
  | Suspended c k e => Suspended c (fun r e' => bindStep (k r e') f) e
  end.

Definition ret {A} (a : A) : Async A := fun e => Finished (Resolved a) e.

Definition bind {A B} (m : Async A) (f : A -> Async B) : Async B :=
  fun e => bindStep (m e) f.

(** A synchronous statement. *)
Definition sync (f : Env -> Env) : Async unit :=
  fun e => Finished (Resolved tt) (f e).

(** Reading the environment at this point of the execution. *)
Definition reading {A B} (get : Env -> A) (f : A -> Async B) : Async B :=
  fun e => f (get e) e.

Declare Scope async_scope.
Delimit Scope async_scope with async.
Notation "x <- m ;; k" := (bind m (fun x => k))
  (at level 61, m at next level, right associativity) : async_scope.
Notation "m ;; k" := (bind m (fun _ => k))
  (at level 61, right associativity) : async_scope.

(** [await git.task(.., callback)]: the request is sent and the method is
    suspended until the reply. The plugin uses what the [await] of a task
    yields, also of [pull], to which it passes a callback: the task object
    of simple-git 2.x is a thenable bound to the promise of the task. When
    the task succeeds, the callback is called with a null error, on which
    the plugin's callbacks do nothing, and [await] yields the result. When
    it fails, the callback (if one was passed) is called with the error and
    the promise is rejected, so [await] throws. *)
Definition await_git (c : GitCall) (callback : option (string -> Env -> Env))
  : Async (list string) :=
  fun e =>
    Suspended c
      (fun r e' =>
         match r with
         | Ok files => Finished (Resolved files) e'
         | Fail msg =>
             Finished (Rejected msg)
                      (match callback with
                       | Some cb => cb msg e'
                       | None => e'
                       end)
         end)
      e.

(** Running a method to its end against a client that answers at once. The
    result is the outcome, the final environment and the requests made, each
    with its reply. *)
Fixpoint run {A} (client : Client) (hist : Trace) (s : Step A)
  : Outcome A * Env * Trace :=
  match s with
  | Finished r e => (r, e, [])
  | Suspended c k e =>
      let r := client hist c in
      let '(o, e', tr) := run client (hist ++ [(c, r)])%list (k r e) in
      (o, e', (c, r) :: tr)
  end.

Definition is_ok (r : Reply) : bool :=
  match r with Ok _ => true | Fail _ => false end.

Definition is_add (c : GitCall) : bool :=
  match c with Add _ => true | _ => false end.
Definition is_commit (c : GitCall) : bool :=
  match c with Commit _ => true | _ => false end.
Definition is_push (c : GitCall) : bool :=
  match c with Push _ _ => true | _ => false end.
Definition is_pull (c : GitCall) : bool :=
  match c with Pull => true | _ => false end.
Definition is_status (c : GitCall) : bool :=
  match c with Status => true | _ => false end.

(** How many requests of a kind a trace holds. *)
Definition calls (kind : GitCall -> bool) (tr : Trace) : nat :=
  List.length (filter (fun cr => kind (fst cr)) tr).

(** ** class ObsidianGit *)

Module ObsidianGit.

Section WithHost.
Variable host : Host.
Open Scope async_scope.

Definition getState (e : Env) : PluginState.t := state e.

Definition refreshStatusBar (e : Env) : Env :=
  with_statusBar
    (StatusBar.displayState host (getState e) (lastUpdate e) (window e)
                            (statusBar e))
    e.

Definition setState (st : PluginState.t) (e : Env) : Env :=
  refreshStatusBar (with_state st e).

(** [this.statusBar.displayMessage(..)] on the plugin's bar and window. *)
Definition statusBar_displayMessage (message : string) (timeout : Z)
  (e : Env) : Env :=
  let '(b, w) :=
    StatusBar.displayMessage message timeout (statusBar e) (window e) in
  with_window w (with_statusBar b e).

Definition displayMessage (message : string) (timeout : Z) (e : Env) : Env :=
  let e1 := statusBar_displayMessage (JS.toLowerCase message) timeout e in
  let e2 := if negb (disablePopups (settings e1)) then Notice message e1
            else e1 in
  console_log ("git obsidian: " ++ message) e2.

(** The default of [displayMessage]'s second parameter. *)
Definition messageTimeout : Z := 4 * 1000.

Definition displayError (message : string) (timeout : Z) (e : Env) : Env :=
  statusBar_displayMessage (JS.toLowerCase message) timeout
                           (Notice message e).

(** The default of [displayError]'s second parameter. *)
Definition errorTimeout : Z := 0.

Definition getFilesChanged : Async (list string) :=
  sync (setState PluginState.status) ;;
  files <- await_git Status None ;;
  ret files.

Definition add : Async unit :=
  sync (setState PluginState.add) ;;
  _ <- await_git (Add "./*")
         (Some (fun msg =>
                  displayError ("Cannot add files: " ++ msg) errorTimeout)) ;;
  ret tt.

Definition formatCommitMessage (template : string) : Async string :=
  template1 <-
    (if JS.includes template "{{numFiles}}" then
       files <- await_git Status None ;;
       let numFiles := List.length files in
       ret (JS.replace template "{{numFiles}}" (JS.String_of_nat numFiles))
     else ret template) ;;
  reading (fun e => momentFormat host (commitDateFormat (settings e))
                                 (now (window e)))
          (fun date => ret (JS.replace template1 "{{date}}" date)).

Definition commit : Async unit :=
  sync (setState PluginState.commit) ;;
  reading (fun e => commitMessage (settings e)) (fun template =>
  commitMessage <- formatCommitMessage template ;;
  _ <- await_git (Commit commitMessage) None ;;
  ret tt).

Definition push : Async unit :=
  sync (setState PluginState.push) ;;
  reading (fun e => (remote (settings e), currentBranch (settings e)))
          (fun target =>
  _ <- await_git (Push (fst target) (snd target))
         (Some (fun msg =>
                  displayError ("Push failed " ++ msg) errorTimeout)) ;;
  sync (fun e => with_lastUpdate (Some (now (window e))) e)).

Definition pull : Async nat :=
  sync (setState PluginState.pull) ;;
  files <- await_git Pull
             (Some (fun msg =>
                      displayError ("Pull failed " ++ msg) errorTimeout)) ;;
  sync (fun e => with_lastUpdate (Some (now (window e))) e) ;;
  ret (List.length files).

Definition pullChangesFromRemote : Async unit :=
  filesUpdated <- pull ;;
  sync (if (0 <? filesUpdated)%nat then
          displayMessage ("Pulled new changes. "
                            ++ JS.String_of_nat filesUpdated
                            ++ " files updated") messageTimeout
        else displayMessage "Everything is up-to-date" messageTimeout) ;;
  sync (setState PluginState.idle).

Definition createBackup : Async unit :=
  files <- getFilesChanged ;;
  (if (List.length files =? 0)%nat then ret tt
   else
     add ;;
     commit ;;
     sync (displayMessage ("Committed "
                             ++ JS.String_of_nat (List.length files)
                             ++ " files") messageTimeout) ;;
     reading (fun e => autoPush (settings e)) (fun autoPush =>
     if autoPush then
       push ;;
       sync (displayMessage ("Pushed "
                               ++ JS.String_of_nat (List.length files)
                               ++ " files to remote") messageTimeout)
     else ret tt)) ;;
  sync (setState PluginState.idle).

(** The callback of the command [push], "Commit *all* changes and push to
    remote repository", registered by [onload]. *)
Definition pushCommand : Async unit :=
  files <- getFilesChanged ;;
  if (List.length files =? 0)%nat then
    sync (displayMessage "No changes detected" messageTimeout)
  else createBackup.

(** The callback of the command [pull], registered by [onload]. *)
Definition pullCommand : Async unit := pullChangesFromRemote.

Definition enableAutoBackup (e : Env) : Env :=
  let minutes := autoSaveInterval (settings e) in
  let '(id, w) :=
    Timers.setInterval RunBackup (minutes * 60000)%Z (window e) in
  with_intervalID (Some id) (with_window w e).

Definition disableAutoBackup (e : Env) : bool * Env :=
  if truthy (intervalID e) then
    match intervalID e with
    | Some id => (true, with_window (Timers.clearInterval id (window e)) e)
    | None => (true, e)
    end
  else (false, e).

End WithHost.

End ObsidianGit.

(** ** class ObsidianGitSettingsTab *)

Module ObsidianGitSettingsTab.

Section WithHost.
Variable host : Host.

(** The [onChange] handler of the text field "Vault backup interval
    (minutes)". *)
Definition intervalOnChange (value : string) (e : Env) : Env :=
  match Number host value with
  | Some n =>
      let e1 := saveData
                  (with_settings
                     (mkSettings (commitMessage (settings e))
                                 (commitDateFormat (settings e))
                                 n
                                 (autoPullOnBoot (settings e))
                                 (autoPush (settings e))
                                 (disablePopups (settings e))
                                 (currentBranch (settings e))
                                 (remote (settings e)))
                     e) in
      if (0 <? autoSaveInterval (settings e1))%Z then
        let e2 := snd (ObsidianGit.disableAutoBackup e1) in
        let e3 := ObsidianGit.enableAutoBackup e2 in
        Notice ("Automatic backup enabled! Every "
                  ++ JS.String_of_Z (autoSaveInterval (settings e3))
                  ++ " minutes.") e3
      else if (autoSaveInterval (settings e1) <=? 0)%Z
              && truthy (intervalID e1) then
        let '(disabled, e2) := ObsidianGit.disableAutoBackup e1 in
        if disabled then Notice "Automatic backup disabled!" e2 else e2
      else e1
  | None => Notice "Please specify a valid number." e
  end.

End WithHost.

End ObsidianGitSettingsTab.

(** ** The event loop of the host *)

(** A method suspended at a request to the git client. *)
Record Pending := mkPending {
  request : GitCall;
  resume : Reply -> Env -> Step unit
}.

Record System := mkSystem {
  env : Env;
  pending : list Pending;      (* the cycles under way, oldest first *)
  issued : list GitCall;       (* every request sent to the client *)
  unhandled : list string      (* rejections that no one caught *)
}.

(** What the user and the outside world can do between two turns of the
    loop. *)
Inductive Event :=
| Tick                                  (* one millisecond passes *)
| PullCommand
| PushCommand
| IntervalInput (value : string)
| Completes (i : nat) (r : Reply).      (* the i-th pending request is answered *)

Module Loop.

Section WithHost.
Variable host : Host.

Definition with_env (e : Env) (s : System) : System :=
  mkSystem e (pending s) (issued s) (unhandled s).

(** Starting or resuming a method from the loop: it runs until it is
    suspended or finished; a rejection that reaches the loop is unhandled. *)
Definition spawn (st : Step unit) (s : System) : System :=
  match st with
  | Finished (Resolved _) e => with_env e s
  | Finished (Rejected x) e =>
      mkSystem e (pending s) (issued s) (unhandled s ++ [x])%list
  | Suspended c k e =>
      mkSystem e (pending s ++ [mkPending c k])%list (issued s ++ [c])%list
               (unhandled s)
  end.

Definition fire (t : Timer) (s : System) : System :=
  let e := with_window (Timers.rearm t (window (env s))) (env s) in
  match action t with
  | ResetMessage =>
      with_env (with_statusBar (StatusBar.resetMessage (statusBar e)) e) s
  | RefreshStatusBar => with_env (ObsidianGit.refreshStatusBar host e) s
  | RunBackup => spawn (ObsidianGit.createBackup host e) (with_env e s)
  end.

(** The turn of a timer that was due: it fires unless an earlier callback
    cleared it. *)
Definition turn (s : System) (t : Timer) : System :=
  if Timers.armed (tid t) (window (env s)) then fire t s else s.

(** One millisecond passes: the timers that are due have their turn in the
    order in which they were armed. *)
Definition tick (s : System) : System :=
  let w := Timers.elapse (window (env s)) in
  fold_left turn
    (filter (Timers.is_due w) (timers w))
    (with_env (with_window w (env s)) s).

Fixpoint remove_nth {A} (i : nat) (l : list A) : list A :=
  match i, l with
  | _, [] => []
  | O, _ :: l' => l'
  | S i', x :: l' => x :: remove_nth i' l'
  end.

Definition step (ev : Event) (s : System) : System :=
  match ev with
  | Tick => tick s
  | PullCommand => spawn (ObsidianGit.pullCommand host (env s)) s
  | PushCommand => spawn (ObsidianGit.pushCommand host (env s)) s
  | IntervalInput value =>
      with_env (ObsidianGitSettingsTab.intervalOnChange host value (env s)) s
  | Completes i r =>
      match nth_error (pending s) i with
      | Some p =>
          spawn (resume p r (env s))
                (mkSystem (env s) (remove_nth i (pending s)) (issued s)
                          (unhandled s))
      | None => s
      end
  end.

Definition steps (evs : list Event) (s : System) : System :=
  fold_left (fun s' ev => step ev s') evs s.

(** [n] milliseconds pass. *)
Definition advance (n : nat) (s : System) : System :=
  Nat.iter n tick s.

End WithHost.

End Loop.

(** ** Notions used to state the properties *)

(** The three components of the result of [run]. *)
Definition outcome_of {A} (r : Outcome A * Env * Trace) : Outcome A :=
  fst (fst r).
Definition env_of {A} (r : Outcome A * Env * Trace) : Env := snd (fst r).
Definition trace_of {A} (r : Outcome A * Env * Trace) : Trace := snd r.

(** No request of the trace failed. *)
Definition all_ok (tr : Trace) : bool := forallb (fun cr => is_ok (snd cr)) tr.

(** [pat] occurs in [s]. *)
Definition occurs (pat s : string) : Prop :=
  exists pre post, s = pre ++ pat ++ post.

(** [s] is [pre ++ pat ++ post] and no occurrence of [pat] in [s] starts
    before this one. *)
Definition first_at (pat pre post s : string) : Prop :=
  s = pre ++ pat ++ post /\
  forall pre' post', s = pre' ++ pat ++ post' -> length pre <= length pre'.

(** [out] is [s] with the first occurrence of [pat], if there is one,
    rewritten by the replacement text, and everything around it kept. *)
Inductive rewrites_first (pat replacement s out : string) : Prop :=
| rewrites_none :
    ~ occurs pat s -> out = s -> rewrites_first pat replacement s out
| rewrites_one pre post :
    first_at pat pre post s ->
    out = pre ++ JS.getSubstitution pat pre post replacement ++ post ->
    rewrites_first pat replacement s out.

(** The phase in which the plugin is while a request is under way, and the
    text that the callback of the request displays when it fails. *)
Definition errorText (c : GitCall) (msg : string) : option string :=
  match c with
  | Add _ => Some ("Cannot add files: " ++ msg)
  | Push _ _ => Some ("Push failed " ++ msg)
  | Pull => Some ("Pull failed " ++ msg)
  | Status | Commit _ => None
  end.

Definition flag (s : System) : bool :=
  isDisplayingMessage (statusBar (env s)).

Definition has_action (a : Action) (t : Timer) : bool :=
  match a, action t with
  | ResetMessage, ResetMessage => true
  | RefreshStatusBar, RefreshStatusBar => true
  | RunBackup, RunBackup => true
  | _, _ => false
  end.

(** The armed timers that run a given closure. *)
Definition armed_for (a : Action) (e : Env) : list Timer :=
  filter (has_action a) (timers (window e)).

(** Timer handles are positive, distinct and below the next handle, and the
    backup timer, if one is armed, is the one that [intervalID] names. *)
Record timers_tracked (e : Env) : Prop := {
  next_positive : (0 < nextId (window e))%Z;
  handles_bounded :
    forall t, In t (timers (window e)) ->
              (0 < tid t < nextId (window e))%Z;
  handles_distinct : NoDup (map tid (timers (window e)));
  backup_named :
    forall t, In t (timers (window e)) -> has_action RunBackup t = true ->
              intervalID e = Some (tid t)
}.

(** [P] holds of the environment whenever the method is suspended or
    finished, provided it holds whenever the method is resumed. *)
Fixpoint keeps {A} (P : Env -> Prop) (s : Step A) : Prop :=
  match s with
  | Finished _ e => P e
  | Suspended _ k e => P e /\ forall r e', P e' -> keeps P (k r e')
  end.

(** The timers of the system are tracked and every suspended cycle keeps
    them so. *)
Definition well_tracked (s : System) : Prop :=
  timers_tracked (env s) /\
  Forall (fun p => forall r e, timers_tracked e ->
                               keeps timers_tracked (resume p r e))
         (pending s).

(** The environment in which a rejected request leaves its method: the
    callback, if one was passed, has run with the error. *)
Definition on_failure (callback : option (string -> Env -> Env))
  (msg : string) (e : Env) : Env :=
  match callback with Some cb => cb msg e | None => e end.

(** A run from environment [e] in which request [c] failed with [msg]
    stopped there: the failed request is the last one of the trace and the
    ones before it succeeded; a failed push comes after exactly one commit;
    the text of the callback of the request, if it has one, is the last
    notice and is displayed as a message on the status bar (an ASCII text in
    lower case, cut at 100 characters); and the display of the error has no
    timeout: it arms no timer, so that the window is the one in which the
    run started, but for the reset of the message "Committed N files" when
    the request that failed is a push. *)
Definition failure_report {A} (e : Env) (r : Outcome A * Env * Trace)
  (c : GitCall) (msg : string) : Prop :=
  (exists before, trace_of r = (before ++ [(c, Fail msg)])%list /\
                  all_ok before = true) /\
  (is_push c = true -> calls is_commit (trace_of r) = 1) /\
  (forall shown, errorText c msg = Some shown ->
     last (notices (env_of r)) "" = shown /\
     isDisplayingMessage (statusBar (env_of r)) = true /\
     (JS.isASCII shown = true ->
      text (statusBar (env_of r)) =
        "git: " ++ JS.slice0 100 (JS.toLowerCase shown))) /\
  window (env_of r) =
    (if is_push c
     then snd (Timers.setTimeout ResetMessage ObsidianGit.messageTimeout
                                 (window e))
     else window e).

(** What a failed request leaves behind besides: the run is rejected with
    the error, and the plugin is still in the phase of the request. *)
Definition failure_residue {A} (r : Outcome A * Env * Trace)
  (c : GitCall) (msg : string) : Prop :=
  outcome_of r = Rejected msg /\
  state (env_of r) <> PluginState.idle /\
  (is_add c = true -> state (env_of r) = PluginState.add) /\
  (is_commit c = true -> state (env_of r) = PluginState.commit) /\
  (is_push c = true -> state (env_of r) = PluginState.push) /\
  (is_pull c = true -> state (env_of r) = PluginState.pull).

(** The message shown by bar [B] waits for its reset timer [R], the only
    reset that is armed. *)
Definition waiting (R : Timer) (B : StatusBarData) (s : System) : Prop :=
  statusBar (env s) = B /\
  In R (timers (window (env s))) /\
  forall u, In u (timers (window (env s))) ->
            tid u = tid R \/ has_action ResetMessage u = true -> u = R.

(** A timer other than the reset [R]: another handle, another closure. *)
Definition other_timer (R t : Timer) : Prop :=
  tid t <> tid R /\ has_action ResetMessage t = false.

(** The flag is down and no reset is armed. *)
Definition resumed (s : System) : Prop :=
  flag s = false /\ armed_for ResetMessage (env s) = [].

(** The environment in which a step stops: at its next request or at its
    end. *)
Definition stops {A} (st : Step A) : Env :=
  match st with
  | Finished _ e => e
  | Suspended _ _ e => e
  end.

(** Whenever the step is resumed, in whatever environment, [P] holds where
    it stops next if it held where it was resumed. *)
Fixpoint carries {A} (P : Env -> Prop) (st : Step A) : Prop :=
  match st with
  | Finished _ _ => True
  | Suspended _ k _ =>
      forall r e', (P e' -> P (stops (k r e'))) /\ carries P (k r e')
  end.

(** The same of a method, from its start. *)
Definition carried {A} (P : Env -> Prop) (m : Async A) : Prop :=
  forall e, (P e -> P (stops (m e))) /\ carries P (m e).

(** [P] is kept by what the methods of the plugin do to the environment
    between two requests: they set the phase, display messages and errors,
    and record the time of the last update. *)
Record method_closed (host : Host) (P : Env -> Prop) : Prop := {
  closed_setState :
    forall st e, P e -> P (ObsidianGit.setState host st e);
  closed_displayMessage :
    forall m t e, P e -> P (ObsidianGit.displayMessage m t e);
  closed_displayError :
    forall m t e, P e -> P (ObsidianGit.displayError m t e);
  closed_lastUpdate :
    forall t e, P e -> P (with_lastUpdate t e)
}.

(** The suspended cycles do to the environment what the methods of the
    plugin do. *)
Definition orderly (host : Host) (s : System) : Prop :=
  forall P, method_closed host P ->
    Forall (fun p => forall r e, (P e -> P (stops (resume p r e))) /\
                                 carries P (resume p r e))
           (pending s).

(** The handle that [intervalID] holds was issued by the window, and no
    timer bears it but a backup timer. *)
Definition interval_named (e : Env) : Prop :=
  forall id, intervalID e = Some id ->
    (id < nextId (window e))%Z /\
    forall u, In u (timers (window e)) -> tid u = id ->
              has_action RunBackup u = true.

(** A system as the plugin keeps it: the timers are tracked, the handle of
    the backup timer names no other timer, and the suspended cycles are
    cycles of the plugin. *)
Definition sound (host : Host) (s : System) : Prop :=
  timers_tracked (env s) /\ interval_named (env s) /\ orderly host s.

(** ** Sample hosts, clients and environments *)

Module Sample.

(** A host whose [Number] reads decimal integers (the empty string is 0) and
    whose clock texts are fixed. *)
Definition host : Host :=
  {| Number := fun s => option_map Z.of_int (NilEmpty.int_of_string s);
     momentFormat := fun _ _ => "2024-01-01 00:00:00";
     fromNow := fun _ _ => "a few seconds ago" |}.

Definition settings0 : ObsidianGitSettings := defaultSettings "master" "origin".

Definition settings_noPush : ObsidianGitSettings :=
  mkSettings "backup {{numFiles}} files, {{date}}" "YYYY-MM-DD HH:mm:ss"
             0 false false false "master" "origin".

(** The field initialisers of the plugin and of its status bar. *)
Definition fresh (s : ObsidianGitSettings) : Env :=
  mkEnv PluginState.idle None None s (mkStatusBar false "")
        (mkWindow 0 [] 1) [] [] [].

(** What [onload] leaves when the repository and its remote are found and
    nothing is pulled: the state is set to idle, the backup timer is armed if
    the interval is positive, and the status bar is refreshed every second. *)
Definition booted (s : ObsidianGitSettings) : Env :=
  let e0 := ObsidianGit.setState host PluginState.idle (fresh s) in
  let e1 := if (0 <? autoSaveInterval (settings e0))%Z
            then ObsidianGit.enableAutoBackup e0 else e0 in
  with_window (snd (Timers.setInterval RefreshStatusBar 1000 (window e1))) e1.

Definition system (e : Env) : System := mkSystem e [] [] [].

(** The plugin just loaded with the default settings, nothing under way. *)
Definition idleSystem : System := system (booted settings0).

(** The command "commit all changes and push" on one changed file, every
    request answered at once, the push failing. *)
Definition pushFails : list Event :=
  [PushCommand; Completes 0 (Ok ["a.md"]); Completes 0 (Ok ["a.md"]);
   Completes 0 (Ok []); Completes 0 (Ok []);
   Completes 0 (Fail "network error")].

(** A client for which every request succeeds and reports [files]. *)
Definition reliable (files : list string) : Client := fun _ _ => Ok files.

(** A client that fails the requests of one kind. *)
Definition failing (kind : GitCall -> bool) (msg : string)
  (files : list string) : Client :=
  fun _ c => if kind c then Fail msg else Ok files.

End Sample.

(** * Properties *)

(** ** Strings *)

Section Strings.

Lemma substring_0_0 s : substring 0 0 s = "".
Proof. destruct s; reflexivity. Qed.

Lemma append_nil_r s : s ++ "" = s.
Proof. induction s; simpl; congruence. Qed.

Lemma append_assoc (a b c : string) : (a ++ b) ++ c = a ++ b ++ c.
Proof. induction a; simpl; congruence. Qed.

Lemma prefix_split pat s :
  prefix pat s = true -> s = pat ++ JS.drop (length pat) s.
Proof.
  revert s; induction pat as [|c pat IH]; intros s H.
  - reflexivity.
  - destruct s as [|d s]; simpl in H; [discriminate|].
    destruct (ascii_dec c d) as [->|]; [|discriminate].
    simpl. f_equal. now apply IH.
Qed.

Lemma prefix_append pat post : prefix pat (pat ++ post) = true.
Proof.
  induction pat as [|c pat IH]; simpl.
  - now destruct post.
  - destruct (ascii_dec c c); [assumption | congruence].
Qed.

Lemma indexOf_unfold pat s :
  JS.indexOf pat s =
  if prefix pat s then Some 0
  else match s with
       | EmptyString => None
       | String _ s' => option_map S (JS.indexOf pat s')
       end.
Proof. destruct s; reflexivity. Qed.

Lemma indexOf_split pat s n :
  JS.indexOf pat s = Some n ->
  s = substring 0 n s ++ pat ++ JS.drop (n + length pat) s.
Proof.
  revert n; induction s as [|c s IH]; intros n H;
    rewrite indexOf_unfold in H;
    destruct (prefix pat _) eqn:P;
    try (injection H as <-; rewrite substring_0_0; now apply prefix_split).
  - discriminate.
  - destruct (JS.indexOf pat s) as [m|] eqn:E; [|discriminate].
    injection H as <-. simpl. f_equal. now apply IH.
Qed.

Lemma indexOf_length pat s n :
  JS.indexOf pat s = Some n -> length (substring 0 n s) = n.
Proof.
  revert n; induction s as [|c s IH]; intros n H;
    rewrite indexOf_unfold in H;
    destruct (prefix pat _) eqn:P; try (now injection H as <-).
  - discriminate.
  - destruct (JS.indexOf pat s) as [m|] eqn:E; [|discriminate].
    injection H as <-. simpl. f_equal. now apply IH.
Qed.

Lemma indexOf_least pat s n pre post :
  JS.indexOf pat s = Some n -> s = pre ++ pat ++ post -> n <= length pre.
Proof.
  revert n pre; induction s as [|c s IH]; intros n pre H E;
    rewrite indexOf_unfold in H;
    destruct (prefix pat _) eqn:P; try (injection H as <-; lia).
  - discriminate.
  - destruct (JS.indexOf pat s) as [m|] eqn:Em; [|discriminate].
    injection H as <-. destruct pre as [|d pre]; simpl in E.
    + rewrite E, prefix_append in P. discriminate.
    + injection E as _ E. simpl. apply le_n_S. now apply (IH m pre).
Qed.

Lemma indexOf_absent pat s :
  JS.indexOf pat s = None -> ~ occurs pat s.
Proof.
  induction s as [|c s IH]; intros H [pre [post E]];
    rewrite indexOf_unfold in H;
    destruct (prefix pat _) eqn:P; try discriminate.
  - destruct pre; simpl in E; [|discriminate].
    rewrite E, prefix_append in P. discriminate.
  - destruct (JS.indexOf pat s) eqn:Em; [discriminate|].
    destruct pre as [|d pre]; simpl in E.
    + rewrite E, prefix_append in P. discriminate.
    + injection E as _ E. apply IH; [reflexivity|]. now exists pre, post.
Qed.

Lemma includes_occurs s pat : JS.includes s pat = true <-> occurs pat s.
Proof.
  unfold JS.includes. destruct (JS.indexOf pat s) as [n|] eqn:E; split.
  - intros _. exists (substring 0 n s), (JS.drop (n + length pat) s).
    now apply indexOf_split.
  - reflexivity.
  - discriminate.
  - intros H. now apply indexOf_absent in E.
Qed.

(** [replace] rewrites the first occurrence and nothing else. *)
Lemma replace_rewrites_first s pat replacement :
  rewrites_first pat replacement s (JS.replace s pat replacement).
Proof.
  unfold JS.replace. destruct (JS.indexOf pat s) as [n|] eqn:E.
  - apply (rewrites_one _ _ _ _ (substring 0 n s)
                         (JS.drop (n + length pat) s)); [split|].
    + now apply indexOf_split.
    + intros pre' post' E'. rewrite (indexOf_length _ _ _ E).
      now apply (indexOf_least _ _ _ _ _ E E').
    + reflexivity.
  - apply rewrites_none; [now apply indexOf_absent | reflexivity].
Qed.

Lemma replace_absent s pat replacement :
  ~ occurs pat s -> JS.replace s pat replacement = s.
Proof.
  intros H. unfold JS.replace.
  destruct (JS.indexOf pat s) as [n|] eqn:E; [|reflexivity].
  exfalso. apply H. exists (substring 0 n s), (JS.drop (n + length pat) s).
  now apply indexOf_split.
Qed.

End Strings.

(** ** Running a method against a client *)

Section Runs.
Variable host : Host.
Variable client : Client.

Lemma run_bindStep {A B} (s : Step A) (f : A -> Async B) hist :
  run client hist (bindStep s f) =
  match run client hist s with
  | (Resolved a, e, tr) =>
      let '(o, e', tr') := run client (hist ++ tr)%list (f a e) in
      (o, e', (tr ++ tr')%list)
  | (Rejected x, e, tr) => (Rejected x, e, tr)
  end.
Proof.
  revert hist; induction s as [r e|c k IH e]; intros hist.
  - destruct r; simpl; [|reflexivity].
    rewrite app_nil_r. now destruct (run client hist (f a e)) as [[o e'] tr'].
  - simpl. rewrite IH.
    destruct (run client _ (k _ e)) as [[[a|x] e'] tr]; [|reflexivity].
    rewrite <- app_assoc. simpl.
    now destruct (run client _ (f a e')) as [[o e''] tr'].
Qed.

Lemma run_bind {A B} (m : Async A) (f : A -> Async B) hist e :
  run client hist (bind m f e) =
  match run client hist (m e) with
  | (Resolved a, e, tr) =>
      let '(o, e', tr') := run client (hist ++ tr)%list (f a e) in
      (o, e', (tr ++ tr')%list)
  | (Rejected x, e, tr) => (Rejected x, e, tr)
  end.
Proof. apply run_bindStep. Qed.

Lemma run_sync f hist e : run client hist (sync f e) = (Resolved tt, f e, []).
Proof. reflexivity. Qed.

Lemma run_ret {A} (a : A) hist e : run client hist (ret a e) = (Resolved a, e, []).
Proof. reflexivity. Qed.

Lemma run_reading {A B} (get : Env -> A) (f : A -> Async B) hist e :
  run client hist (reading get f e) = run client hist (f (get e) e).
Proof. reflexivity. Qed.

Lemma run_await c callback hist e :
  run client hist (await_git c callback e) =
  match client hist c with
  | Ok files => (Resolved files, e, [(c, Ok files)])
  | Fail msg => (Rejected msg, on_failure callback msg e, [(c, Fail msg)])
  end.
Proof. simpl. destruct (client hist c); reflexivity. Qed.

Ltac run_simpl :=
  repeat (match goal with
          | |- context [run _ _ (bind _ _ _)] => rewrite run_bind
          | |- context [run _ _ (sync _ _)] => rewrite run_sync
          | |- context [run _ _ (ret _ _)] => rewrite run_ret
          | |- context [run _ _ (reading _ _ _)] => rewrite run_reading
          | |- context [run _ _ (await_git _ _ _)] => rewrite run_await
          | |- context [(_ ++ [])%list] => rewrite app_nil_r
          end;
          cbn [app fst snd]).

Lemma run_getFilesChanged hist e :
  run client hist (ObsidianGit.getFilesChanged host e) =
  let e1 := ObsidianGit.setState host PluginState.status e in
  match client hist Status with
  | Ok files => (Resolved files, e1, [(Status, Ok files)])
  | Fail msg => (Rejected msg, e1, [(Status, Fail msg)])
  end.
Proof.
  unfold ObsidianGit.getFilesChanged. run_simpl.
  destruct (client _ _); run_simpl; reflexivity.
Qed.

Lemma run_add hist e :
  run client hist (ObsidianGit.add host e) =
  let e1 := ObsidianGit.setState host PluginState.add e in
  match client hist (Add "./*") with
  | Ok files => (Resolved tt, e1, [(Add "./*", Ok files)])
  | Fail msg =>
      (Rejected msg,
       ObsidianGit.displayError ("Cannot add files: " ++ msg)
                                ObsidianGit.errorTimeout e1,
       [(Add "./*", Fail msg)])
  end.
Proof.
  unfold ObsidianGit.add. run_simpl.
  destruct (client _ _); run_simpl; reflexivity.
Qed.

Lemma run_formatCommitMessage template hist e :
  run client hist (ObsidianGit.formatCommitMessage host template e) =
  let date := momentFormat host (commitDateFormat (settings e))
                           (now (window e)) in
  if JS.includes template "{{numFiles}}" then
    match client hist Status with
    | Ok files =>
        (Resolved
           (JS.replace
              (JS.replace template "{{numFiles}}"
                          (JS.String_of_nat (List.length files)))
              "{{date}}" date),
         e, [(Status, Ok files)])
    | Fail msg => (Rejected msg, e, [(Status, Fail msg)])
    end
  else (Resolved (JS.replace template "{{date}}" date), e, []).
Proof.
  unfold ObsidianGit.formatCommitMessage. run_simpl.
  destruct (JS.includes template "{{numFiles}}"); run_simpl.
  - destruct (client _ _); run_simpl; reflexivity.
  - reflexivity.
Qed.

Lemma run_push hist e :
  run client hist (ObsidianGit.push host e) =
  let e1 := ObsidianGit.setState host PluginState.push e in
  let c := Push (remote (settings e)) (currentBranch (settings e)) in
  match client hist c with
  | Ok files =>
      (Resolved tt, with_lastUpdate (Some (now (window e1))) e1,
       [(c, Ok files)])
  | Fail msg =>
      (Rejected msg,
       ObsidianGit.displayError ("Push failed " ++ msg)
                                ObsidianGit.errorTimeout e1,
       [(c, Fail msg)])
  end.
Proof.
  unfold ObsidianGit.push. run_simpl.
  destruct (client _ _); run_simpl; reflexivity.
Qed.

Lemma run_pull hist e :
  run client hist (ObsidianGit.pull host e) =
  let e1 := ObsidianGit.setState host PluginState.pull e in
  match client hist Pull with
  | Ok files =>
      (Resolved (List.length files),
       with_lastUpdate (Some (now (window e1))) e1, [(Pull, Ok files)])
  | Fail msg =>
      (Rejected msg,
       ObsidianGit.displayError ("Pull failed " ++ msg)
                                ObsidianGit.errorTimeout e1,
       [(Pull, Fail msg)])
  end.
Proof.
  unfold ObsidianGit.pull. run_simpl.
  destruct (client _ _); run_simpl; reflexivity.
Qed.

Lemma run_commit hist e :
  run client hist (ObsidianGit.commit host e) =
  let e1 := ObsidianGit.setState host PluginState.commit e in
  match run client hist
            (ObsidianGit.formatCommitMessage host (commitMessage (settings e1)) e1) with
  | (Resolved m, e2, tr) =>
      match client (hist ++ tr)%list (Commit m) with
      | Ok files => (Resolved tt, e2, (tr ++ [(Commit m, Ok files)])%list)
      | Fail msg => (Rejected msg, e2, (tr ++ [(Commit m, Fail msg)])%list)
      end
  | (Rejected x, e2, tr) => (Rejected x, e2, tr)
  end.
Proof.
  unfold ObsidianGit.commit. run_simpl.
  destruct (run client hist _) as [[[m|x] e2] tr]; [|reflexivity].
  run_simpl. destruct (client _ _); run_simpl; reflexivity.
Qed.

Ltac env_frame :=
  intros;
  unfold ObsidianGit.displayMessage, ObsidianGit.displayError,
    ObsidianGit.statusBar_displayMessage, StatusBar.displayMessage,
    ObsidianGit.setState, ObsidianGit.refreshStatusBar;
  repeat match goal with
         | |- context [if ?b then _ else _] => destruct b
         end;
  reflexivity.

Lemma settings_setState st e :
  settings (ObsidianGit.setState host st e) = settings e.
Proof. env_frame. Qed.

Lemma settings_displayMessage m t e :
  settings (ObsidianGit.displayMessage m t e) = settings e.
Proof. env_frame. Qed.

Lemma state_setState st e : state (ObsidianGit.setState host st e) = st.
Proof. env_frame. Qed.

Lemma state_displayError m t e :
  state (ObsidianGit.displayError m t e) = state e.
Proof. env_frame. Qed.

Lemma notices_displayError m t e :
  notices (ObsidianGit.displayError m t e) = (notices e ++ [m])%list.
Proof. env_frame. Qed.

Lemma statusBar_displayError m t e :
  statusBar (ObsidianGit.displayError m t e) =
  mkStatusBar true ("git: " ++ JS.slice0 100 (JS.toLowerCase m)).
Proof. env_frame. Qed.

Lemma window_setState st e :
  window (ObsidianGit.setState host st e) = window e.
Proof. reflexivity. Qed.

(** An error displayed with the default timeout arms no timer. *)
Lemma window_displayError m e :
  window (ObsidianGit.displayError m ObsidianGit.errorTimeout e) = window e.
Proof. reflexivity. Qed.

(** A message displayed with the default timeout arms its reset. *)
Lemma window_displayMessage m e :
  window (ObsidianGit.displayMessage m ObsidianGit.messageTimeout e) =
  snd (Timers.setTimeout ResetMessage ObsidianGit.messageTimeout (window e)).
Proof.
  unfold ObsidianGit.displayMessage, ObsidianGit.statusBar_displayMessage,
    StatusBar.displayMessage, ObsidianGit.messageTimeout.
  cbn [Z.mul Pos.mul Z.eqb Z.ltb Z.compare negb andb with_window
       with_statusBar settings].
  destruct (negb (disablePopups (settings e))); reflexivity.
Qed.

Ltac run_methods :=
  repeat (run_simpl;
          match goal with
          | |- context [run _ _ (ObsidianGit.getFilesChanged _ _)] =>
              rewrite run_getFilesChanged
          | |- context [run _ _ (ObsidianGit.add _ _)] => rewrite run_add
          | |- context [run _ _ (ObsidianGit.commit _ _)] =>
              rewrite run_commit
          | |- context [run _ _ (ObsidianGit.formatCommitMessage _ _ _)] =>
              rewrite run_formatCommitMessage
          | |- context [run _ _ (ObsidianGit.push _ _)] => rewrite run_push
          | |- context [run _ _ (ObsidianGit.pull _ _)] => rewrite run_pull
          end;
          cbn zeta).

(** Unfolding a method up to its next request, and splitting on the reply
    of the client and on the settings that the method reads. *)
Ltac run_eval :=
  repeat (progress
            (unfold ObsidianGit.createBackup, ObsidianGit.getFilesChanged,
               ObsidianGit.add, ObsidianGit.commit, ObsidianGit.push,
               ObsidianGit.pull, ObsidianGit.formatCommitMessage,
               ObsidianGit.pullChangesFromRemote, ObsidianGit.pushCommand,
               ObsidianGit.pullCommand, bind, sync, ret, reading, await_git;
             cbn [run bindStep fst snd app List.length Nat.eqb Nat.ltb
                  Nat.leb])).

Ltac run_branch :=
  match goal with
  | |- context [match ?cl ?h ?c with Ok _ => _ | Fail _ => _ end] =>
      destruct (cl h c) eqn:?
  | |- context [if JS.includes ?t ?p then _ else _] =>
      destruct (JS.includes t p) eqn:?
  | |- context [if autoPush ?s then _ else _] =>
      destruct (autoPush s) eqn:?
  end.

Ltac run_all :=
  repeat (run_eval; rewrite ?settings_displayMessage, ?settings_setState;
          run_branch);
  run_eval.

Ltac count_calls :=
  cbn [calls filter fst snd is_add is_commit is_push is_pull is_status all_ok
       forallb is_ok List.length andb app trace_of env_of outcome_of].

(** C1, amended. When the status query returns a non-empty ChangeSet, one
    run of [createBackup] calls add exactly once and calls commit and push
    at most once each; when no request of the run fails, it calls commit
    exactly once, and push exactly once if and only if the autoPush setting
    is enabled. *)
Theorem createBackup_calls hist e files :
  client hist Status = Ok files -> files <> [] ->
  let tr := trace_of (run client hist (ObsidianGit.createBackup host e)) in
  calls is_add tr = 1 /\ calls is_commit tr <= 1 /\ calls is_push tr <= 1 /\
  (all_ok tr = true ->
   calls is_commit tr = 1 /\
   calls is_push tr = if autoPush (settings e) then 1 else 0).
Proof.
  intros H Hne. run_eval. rewrite H.
  destruct files as [|f files]; [congruence|].
  run_all; count_calls; repeat split; try lia; try discriminate.
Qed.

Lemma all_ok_no_failure tr c msg : all_ok tr = true -> ~ In (c, Fail msg) tr.
Proof.
  unfold all_ok. rewrite forallb_forall. intros A H.
  specialize (A _ H). discriminate.
Qed.

Lemma failed_request_last tr c msg :
  In (c, Fail msg) tr -> all_ok (removelast tr) = true ->
  last tr (Status, Ok []) = (c, Fail msg).
Proof.
  intros H A. destruct tr as [|x tr] using rev_ind; [destruct H|].
  rewrite removelast_last in A. rewrite last_last.
  apply in_app_or in H as [H|[H|[]]]; [|assumption].
  now apply all_ok_no_failure in H.
Qed.

Ltac failed_request H :=
  cbn [trace_of snd app] in H;
  first [ exfalso; revert H; apply all_ok_no_failure; reflexivity
        | apply failed_request_last in H; [|reflexivity];
          cbn [last] in H; apply pair_equal_spec in H as [<- H];
          injection H as <- ].

Ltac failure_facts :=
  cbn [outcome_of env_of trace_of fst snd app errorText is_add is_commit
       is_push is_pull is_status calls filter List.length];
  rewrite ?state_displayError, ?state_setState;
  repeat match goal with |- _ /\ _ => split end;
  match goal with
  | |- Rejected _ = Rejected _ => reflexivity
  | |- exists before, ?l = _ /\ _ =>
      exists (removelast l); split; reflexivity
  | |- _ <> _ => discriminate
  | |- false = true -> _ => discriminate
  | |- true = true -> _ => reflexivity
  | |- forall shown, None = Some _ -> _ => discriminate
  | |- forall shown, Some _ = Some _ -> _ =>
      intros ? [= <-]; rewrite notices_displayError, statusBar_displayError;
      split; [apply last_last | split; [reflexivity | intros _; reflexivity]]
  | |- window _ = _ =>
      repeat first [ rewrite window_displayError
                   | rewrite window_setState
                   | rewrite window_displayMessage ];
      reflexivity
  end.

(** Every failed request of a cycle, with all that it leaves behind. *)
Lemma client_failure_effects hist e c msg :
  (In (c, Fail msg)
      (trace_of (run client hist (ObsidianGit.createBackup host e))) ->
   failure_report e (run client hist (ObsidianGit.createBackup host e))
                  c msg /\
   failure_residue (run client hist (ObsidianGit.createBackup host e)) c msg)
  /\
  (In (c, Fail msg)
      (trace_of (run client hist (ObsidianGit.pullChangesFromRemote host e)))
   -> failure_report
        e (run client hist (ObsidianGit.pullChangesFromRemote host e))
        c msg /\
      failure_residue
        (run client hist (ObsidianGit.pullChangesFromRemote host e)) c msg).
Proof.
  unfold failure_report, failure_residue. split.
  - run_eval. destruct (client hist Status) as [files|m] eqn:Es.
    + destruct files as [|f files]; run_all; intros H; failed_request H;
        failure_facts.
    + run_all; intros H; failed_request H; failure_facts.
  - run_all; intros H; failed_request H; failure_facts.
Qed.

(** C3, amended. A failure of the client during add, push or pull is
    displayed by the callback of the request, as a notice and as a message
    of the status bar that has no timeout: the flag of the bar is set and
    the display arms no reset (the only reset armed during the cycle is
    that of the message "Committed N files", displayed before a push); for
    an error text of ASCII characters the bar shows it in lower case, cut
    at 100 characters. And a failure during any request of a backup cycle
    or a pull cycle stops the cycle there: the failed request is the last
    one and the requests made before it stand, so that a push that fails
    leaves the commit made before it. *)
Theorem client_failure_aborts hist e c msg :
  (In (c, Fail msg)
      (trace_of (run client hist (ObsidianGit.createBackup host e))) ->
   failure_report e (run client hist (ObsidianGit.createBackup host e))
                  c msg)
  /\
  (In (c, Fail msg)
      (trace_of (run client hist (ObsidianGit.pullChangesFromRemote host e)))
   -> failure_report
        e (run client hist (ObsidianGit.pullChangesFromRemote host e))
        c msg).
Proof.
  split; intros H; now apply (client_failure_effects hist e c msg).
Qed.

(** C2, amended. When the status query returns an empty ChangeSet,
    [createBackup] makes no other request (no add, commit or push), resolves
    without a value and changes nothing but the plugin state (status, then
    idle) and the phase text of the status bar; the command "commit all
    changes and push" makes no other request either and then displays "No
    changes detected" after the status check. *)
Theorem empty_ChangeSet hist e :
  client hist Status = Ok [] ->
  let idled := ObsidianGit.setState host PluginState.idle
                 (ObsidianGit.setState host PluginState.status e) in
  run client hist (ObsidianGit.createBackup host e) =
    (Resolved tt, idled, [(Status, Ok [])]) /\
  isDisplayingMessage (statusBar idled) = isDisplayingMessage (statusBar e) /\
  with_statusBar (statusBar e) (with_state (state e) idled) = e /\
  run client hist (ObsidianGit.pushCommand host e) =
    (Resolved tt,
     ObsidianGit.displayMessage "No changes detected"
       ObsidianGit.messageTimeout
       (ObsidianGit.setState host PluginState.status e),
     [(Status, Ok [])]).
Proof.
  intros H. cbn zeta. repeat split.
  - unfold ObsidianGit.createBackup. run_methods. rewrite H.
    cbn [List.length Nat.eqb]. run_methods. reflexivity.
  - unfold ObsidianGit.setState, ObsidianGit.refreshStatusBar,
      StatusBar.displayState, StatusBar.displayFromNow. cbn.
    destruct (isDisplayingMessage (statusBar e)) eqn:F; cbn; rewrite ?F;
      [reflexivity|].
    destruct (lastUpdate e); [destruct (truthy _)|]; cbn; now rewrite F.
  - now destruct e.
  - unfold ObsidianGit.pushCommand. run_methods. rewrite H.
    cbn [List.length Nat.eqb]. run_methods. reflexivity.
Qed.


(** C7. The formatter rewrites the first occurrence of [{{numFiles}}] and
    then the first occurrence of [{{date}}], each at most once, and keeps
    the text before and after them as it is: later occurrences and other
    placeholders pass through unchanged. *)
Theorem formatCommitMessage_first_occurrence hist e template :
  let date := momentFormat host (commitDateFormat (settings e))
                           (now (window e)) in
  let r := run client hist (ObsidianGit.formatCommitMessage host template e) in
  (~ occurs "{{numFiles}}" template ->
   exists out,
     r = (Resolved out, e, []) /\
     rewrites_first "{{date}}" date template out) /\
  (forall files,
     occurs "{{numFiles}}" template -> client hist Status = Ok files ->
     exists counted out,
       r = (Resolved out, e, [(Status, Ok files)]) /\
       rewrites_first "{{numFiles}}" (JS.String_of_nat (List.length files))
                      template counted /\
       rewrites_first "{{date}}" date counted out) /\
  (~ occurs "{{numFiles}}" template -> ~ occurs "{{date}}" template ->
   r = (Resolved template, e, [])).
Proof.
  cbn zeta. rewrite run_formatCommitMessage. cbn zeta.
  destruct (JS.includes template "{{numFiles}}") eqn:I.
  - apply includes_occurs in I. split; [intros N; contradiction|].
    split; [|intros N; contradiction].
    intros files _ ->. eexists _, _. split; [reflexivity|].
    split; apply replace_rewrites_first.
  - assert (N : ~ occurs "{{numFiles}}" template).
    { intros O. apply includes_occurs in O. congruence. }
    split; [|split].
    + intros _. eexists. split; [reflexivity|apply replace_rewrites_first].
    + intros files O. contradiction.
    + intros _ D. now rewrite replace_absent.
Qed.

End Runs.

(** Instances of the theorems, and runs on which the sentences of the
    specification fail. *)

Lemma createBackup_calls_witness :
  let tr := trace_of (run (Sample.reliable ["a.md"; "b.md"]) []
                          (ObsidianGit.createBackup
                             Sample.host (Sample.booted Sample.settings0))) in
  calls is_add tr = 1 /\ calls is_commit tr = 1 /\ calls is_push tr = 1.
Proof.
  destruct (createBackup_calls Sample.host (Sample.reliable ["a.md"; "b.md"])
              [] (Sample.booted Sample.settings0) ["a.md"; "b.md"])
    as [A [_ [_ H]]].
  - reflexivity.
  - discriminate.
  - destruct (H eq_refl) as [C P]. repeat split; assumption.
Defined.

(** C1 as stated fails: the ChangeSet is not empty, add succeeds and the
    commit fails, so push is not called although autoPush is enabled; when
    add fails, commit is not called either. *)
Lemma createBackup_failure_skips_push :
  let e := Sample.booted Sample.settings0 in
  let tr := trace_of (run (Sample.failing is_commit "nothing to commit"
                                          ["a.md"]) []
                          (ObsidianGit.createBackup Sample.host e)) in
  let tr' := trace_of (run (Sample.failing is_add "index.lock exists"
                                           ["a.md"]) []
                           (ObsidianGit.createBackup Sample.host e)) in
  autoPush (settings e) = true /\
  calls is_add tr = 1 /\ calls is_commit tr = 1 /\ calls is_push tr = 0 /\
  calls is_add tr' = 1 /\ calls is_commit tr' = 0 /\ calls is_push tr' = 0.
Proof. vm_compute. repeat split. Qed.

Lemma client_failure_aborts_witness :
  failure_report
    (Sample.booted Sample.settings0)
    (run (Sample.failing is_push "network error" ["a.md"]) []
         (ObsidianGit.createBackup Sample.host
                                   (Sample.booted Sample.settings0)))
    (Push "origin" "master") "network error" /\
  failure_report
    (Sample.booted Sample.settings0)
    (run (Sample.failing is_pull "no route to host" []) []
         (ObsidianGit.pullChangesFromRemote
            Sample.host (Sample.booted Sample.settings0)))
    Pull "no route to host".
Proof.
  split.
  - apply (proj1 (client_failure_aborts Sample.host
                    (Sample.failing is_push "network error" ["a.md"]) []
                    (Sample.booted Sample.settings0)
                    (Push "origin" "master") "network error")).
    vm_compute. auto 10.
  - apply (proj2 (client_failure_aborts Sample.host
                    (Sample.failing is_pull "no route to host" []) []
                    (Sample.booted Sample.settings0)
                    Pull "no route to host")).
    vm_compute. auto.
Defined.

(** C3 as stated fails: the push fails after a successful commit; the error
    is displayed, but the cycle is rejected, so that the error reaches the
    caller, and the plugin state stays at push; when the commit fails,
    nothing is displayed at all. *)
Lemma push_failure_not_idle :
  let e := Sample.booted Sample.settings0 in
  let r := run (Sample.failing is_push "network error" ["a.md"]) []
               (ObsidianGit.createBackup Sample.host e) in
  let r' := run (Sample.failing is_commit "nothing to commit" ["a.md"]) []
                (ObsidianGit.createBackup Sample.host e) in
  outcome_of r = Rejected "network error" /\
  state (env_of r) = PluginState.push /\
  calls is_commit (trace_of r) = 1 /\
  unhandled (Loop.steps Sample.host Sample.pushFails Sample.idleSystem) =
    ["network error"] /\
  outcome_of r' = Rejected "nothing to commit" /\
  state (env_of r') = PluginState.commit /\
  notices (env_of r') = [] /\
  isDisplayingMessage (statusBar (env_of r')) = false.
Proof. vm_compute. repeat split. Qed.


(** A push that succeeds records the clock; one that fails leaves the time
    of the last update undefined, as it was. *)
Example push_records_on_success :
  let e := with_window (mkWindow 1700000000000 [] 1)
             (Sample.fresh Sample.settings0) in
  lastUpdate (env_of (run (Sample.reliable []) []
                          (ObsidianGit.push Sample.host e))) =
    Some 1700000000000%Z /\
  lastUpdate (env_of (run (Sample.failing is_push "network error" []) []
                          (ObsidianGit.push Sample.host e))) = None /\
  lastUpdate (env_of (run (Sample.failing is_pull "network error" []) []
                          (ObsidianGit.pull Sample.host e))) = None.
Proof. vm_compute. repeat split. Qed.

Lemma empty_ChangeSet_witness :
  let e := Sample.booted Sample.settings0 in
  let idled := ObsidianGit.setState Sample.host PluginState.idle
                 (ObsidianGit.setState Sample.host PluginState.status e) in
  run (Sample.reliable []) [] (ObsidianGit.createBackup Sample.host e) =
    (Resolved tt, idled, [(Status, Ok [])]) /\
  isDisplayingMessage (statusBar idled) = isDisplayingMessage (statusBar e) /\
  with_statusBar (statusBar e) (with_state (state e) idled) = e /\
  run (Sample.reliable []) [] (ObsidianGit.pushCommand Sample.host e) =
    (Resolved tt,
     ObsidianGit.displayMessage "No changes detected"
       ObsidianGit.messageTimeout
       (ObsidianGit.setState Sample.host PluginState.status e),
     [(Status, Ok [])]).
Proof.
  apply (empty_ChangeSet Sample.host (Sample.reliable []) []
                         (Sample.booted Sample.settings0)).
  reflexivity.
Defined.

(** C2 as stated fails: on an empty ChangeSet the command displays a
    message, which raises the flag of the status bar, arms a timer and posts
    a notice, and it leaves the plugin state at status; neither path returns
    a count. *)
Lemma pushCommand_empty_mutates :
  let e := Sample.booted Sample.settings0 in
  let r := run (Sample.reliable []) []
               (ObsidianGit.pushCommand Sample.host e) in
  trace_of r = [(Status, Ok [])] /\
  outcome_of r = Resolved tt /\
  state (env_of r) = PluginState.status /\
  notices (env_of r) = ["No changes detected"] /\
  isDisplayingMessage (statusBar (env_of r)) = true /\
  List.length (timers (window (env_of r))) =
    S (List.length (timers (window e))).
Proof. vm_compute. repeat split. Qed.

Lemma formatCommitMessage_witness :
  (exists out,
     run (Sample.reliable []) []
         (ObsidianGit.formatCommitMessage
            Sample.host "vault backup: {{date}} {{date}}"
            (Sample.booted Sample.settings0)) =
       (Resolved out, Sample.booted Sample.settings0, []) /\
     rewrites_first "{{date}}" "2024-01-01 00:00:00"
                    "vault backup: {{date}} {{date}}" out) /\
  (exists counted out,
     run (Sample.reliable ["a.md"; "b.md"; "c.md"]) []
         (ObsidianGit.formatCommitMessage
            Sample.host "{{numFiles}} files {{date}} {{date}} {{numFiles}}"
            (Sample.booted Sample.settings0)) =
       (Resolved out, Sample.booted Sample.settings0,
        [(Status, Ok ["a.md"; "b.md"; "c.md"])]) /\
     rewrites_first "{{numFiles}}" "3"
       "{{numFiles}} files {{date}} {{date}} {{numFiles}}" counted /\
     rewrites_first "{{date}}" "2024-01-01 00:00:00" counted out) /\
  run (Sample.reliable []) []
      (ObsidianGit.formatCommitMessage
         Sample.host "backup of {{vault}}" (Sample.booted Sample.settings0)) =
    (Resolved "backup of {{vault}}", Sample.booted Sample.settings0, []).
Proof.
  split; [|split].
  - apply (proj1 (formatCommitMessage_first_occurrence
                    Sample.host (Sample.reliable []) []
                    (Sample.booted Sample.settings0)
                    "vault backup: {{date}} {{date}}")).
    now apply indexOf_absent.
  - apply (proj1 (proj2 (formatCommitMessage_first_occurrence
                           Sample.host
                           (Sample.reliable ["a.md"; "b.md"; "c.md"]) []
                           (Sample.booted Sample.settings0)
                           "{{numFiles}} files {{date}} {{date}} {{numFiles}}"))
                 ["a.md"; "b.md"; "c.md"]).
    + exists "", " files {{date}} {{date}} {{numFiles}}". reflexivity.
    + reflexivity.
  - apply (proj2 (proj2 (formatCommitMessage_first_occurrence
                           Sample.host (Sample.reliable []) []
                           (Sample.booted Sample.settings0)
                           "backup of {{vault}}")));
      now apply indexOf_absent.
Defined.

(** Two changed files and autoPush: status, add, commit with the default
    message, push to the remote and branch of the settings. *)
Example createBackup_two_files :
  map fst (trace_of (run (Sample.reliable ["a.md"; "b.md"]) []
                         (ObsidianGit.createBackup
                            Sample.host (Sample.booted Sample.settings0)))) =
  [Status; Add "./*"; Commit "vault backup: 2024-01-01 00:00:00";
   Push "origin" "master"].
Proof. reflexivity. Qed.

(** Without autoPush, and with the file count in the message: a second
    status query, and no push. *)
Example createBackup_without_push :
  map fst (trace_of (run (Sample.reliable ["a.md"; "b.md"]) []
                         (ObsidianGit.createBackup
                            Sample.host
                            (Sample.booted Sample.settings_noPush)))) =
  [Status; Add "./*"; Status; Commit "backup 2 files, 2024-01-01 00:00:00"].
Proof. reflexivity. Qed.

(** The formatter on a template that repeats its placeholders. *)
Example formatCommitMessage_repeated :
  outcome_of
    (run (Sample.reliable ["a.md"; "b.md"; "c.md"]) []
         (ObsidianGit.formatCommitMessage
            Sample.host "{{numFiles}} files {{date}} {{date}} {{numFiles}} {{x}}"
            (Sample.booted Sample.settings0))) =
  Resolved "3 files 2024-01-01 00:00:00 {{date}} {{numFiles}} {{x}}".
Proof. reflexivity. Qed.

(** ** Timers and the status bar *)

Section Timing.
Variable host : Host.

Lemma displayState_flag st lu w b :
  isDisplayingMessage (StatusBar.displayState host st lu w b)
  = isDisplayingMessage b.
Proof.
  unfold StatusBar.displayState, StatusBar.displayFromNow.
  destruct (isDisplayingMessage b) eqn:F; [assumption|].
  destruct st; try assumption.
  destruct lu; [destruct (truthy _)|]; assumption.
Qed.

Lemma displayState_suppressed st lu w b :
  isDisplayingMessage b = true -> StatusBar.displayState host st lu w b = b.
Proof. unfold StatusBar.displayState. now intros ->. Qed.

(** The text that the phase display writes does not depend on what the bar
    showed before. *)
Lemma displayState_resumes st lu w b :
  isDisplayingMessage b = false ->
  StatusBar.displayState host st lu w b =
  StatusBar.displayState host st lu w (mkStatusBar false "").
Proof.
  unfold StatusBar.displayState, StatusBar.displayFromNow, StatusBar.setText.
  intros ->. cbn. destruct st; reflexivity.
Qed.

Lemma createBackup_starts e :
  exists k, ObsidianGit.createBackup host e =
            Suspended Status k (ObsidianGit.setState host PluginState.status e).
Proof. eexists. reflexivity. Qed.

Lemma pullCommand_starts e :
  exists k, ObsidianGit.pullCommand host e =
            Suspended Pull k (ObsidianGit.setState host PluginState.pull e).
Proof. eexists. reflexivity. Qed.

Lemma pushCommand_starts e :
  exists k, ObsidianGit.pushCommand host e =
            Suspended Status k (ObsidianGit.setState host PluginState.status e).
Proof. eexists. reflexivity. Qed.

(** What firing a timer does to the system. *)
Lemma fire_effect t s :
  let e := env s in
  let w := Timers.rearm t (window e) in
  window (env (Loop.fire host t s)) = w /\
  unhandled (Loop.fire host t s) = unhandled s /\
  match action t with
  | ResetMessage =>
      statusBar (env (Loop.fire host t s)) =
        StatusBar.resetMessage (statusBar e) /\
      pending (Loop.fire host t s) = pending s /\
      issued (Loop.fire host t s) = issued s /\
      state (env (Loop.fire host t s)) = state e
  | RefreshStatusBar =>
      statusBar (env (Loop.fire host t s)) =
        StatusBar.displayState host (state e) (lastUpdate e) w (statusBar e) /\
      pending (Loop.fire host t s) = pending s /\
      issued (Loop.fire host t s) = issued s /\
      state (env (Loop.fire host t s)) = state e
  | RunBackup =>
      statusBar (env (Loop.fire host t s)) =
        StatusBar.displayState host PluginState.status (lastUpdate e) w
                               (statusBar e) /\
      map request (pending (Loop.fire host t s)) =
        (map request (pending s) ++ [Status])%list /\
      issued (Loop.fire host t s) = (issued s ++ [Status])%list /\
      state (env (Loop.fire host t s)) = PluginState.status
  end.
Proof.
  unfold Loop.fire. destruct (action t); cbn.
  - repeat split.
  - repeat split.
  - repeat split. now rewrite map_app.
Qed.

Lemma rearm_now t w : now (Timers.rearm t w) = now w.
Proof. reflexivity. Qed.

(** A timer armed after [t] fired was armed before, or it is the next
    round of an interval with the handle of [t]. *)
Lemma rearm_In t w u :
  In u (timers (Timers.rearm t w)) ->
  (In u (timers w) /\ tid u <> tid t) \/
  (exists u0 p, In u0 (timers w) /\ tid u0 = tid t /\ period u0 = Some p /\
                u = mkTimer (tid u0) (now w + Timers.delay_of p) (Some p)
                            (action u0)).
Proof.
  unfold Timers.rearm; cbn [timers]. rewrite in_flat_map.
  intros [u0 [Hin Hu]]. destruct (Z.eqb_spec (tid u0) (tid t)) as [E|N].
  - destruct (period u0) as [p|] eqn:P; [|destruct Hu].
    destruct Hu as [<-|[]]. right. now exists u0, p.
  - destruct Hu as [<-|[]]. now left.
Qed.

Lemma rearm_keeps t w u :
  In u (timers w) -> tid u <> tid t -> In u (timers (Timers.rearm t w)).
Proof.
  intros Hin N. unfold Timers.rearm; cbn [timers]. rewrite in_flat_map.
  exists u. split; [assumption|].
  destruct (Z.eqb_spec (tid u) (tid t)); [contradiction|now left].
Qed.

Lemma armed_for_nil a e :
  armed_for a e = [] <->
  forall u, In u (timers (window e)) -> has_action a u = false.
Proof.
  unfold armed_for. induction (timers (window e)) as [|u l IH]; cbn.
  - split; [intros _ ? []|reflexivity].
  - destruct (has_action a u) eqn:H; split.
    + discriminate.
    + intros A. specialize (A u (or_introl eq_refl)). congruence.
    + intros E v [<-|Hv]; [assumption|]. now apply IH.
    + intros A. apply IH. intros v Hv. apply A. now right.
Qed.

Lemma has_action_rearmed a u0 d p :
  has_action a (mkTimer (tid u0) d p (action u0)) = has_action a u0.
Proof. reflexivity. Qed.

Lemma rearm_armed_for_nil a t e :
  armed_for a e = [] ->
  armed_for a (with_window (Timers.rearm t (window e)) e) = [].
Proof.
  rewrite !armed_for_nil. intros A u Hu. cbn [window with_window] in Hu.
  apply rearm_In in Hu as [[Hu _]|[u0 [p [Hu0 [_ [_ ->]]]]]].
  - now apply A.
  - rewrite has_action_rearmed. now apply A.
Qed.

Lemma armed_for_window a e e' :
  window e' = window e -> armed_for a e' = armed_for a e.
Proof. unfold armed_for. now intros ->. Qed.

Lemma fire_window t s :
  window (env (Loop.fire host t s)) = Timers.rearm t (window (env s)).
Proof. apply (fire_effect t s). Qed.

Lemma fire_armed_for_nil a t s :
  armed_for a (env s) = [] -> armed_for a (env (Loop.fire host t s)) = [].
Proof.
  intros A. rewrite (armed_for_window a
                       (with_window (Timers.rearm t (window (env s))) (env s))).
  - now apply rearm_armed_for_nil.
  - apply fire_window.
Qed.

(** Firing a timer that is not a message reset leaves the flag alone, and
    the whole status bar while the flag is set. *)
Lemma fire_flag t s :
  has_action ResetMessage t = false ->
  flag (Loop.fire host t s) = flag s /\
  (flag s = true -> statusBar (env (Loop.fire host t s)) = statusBar (env s)).
Proof.
  intros H. unfold flag.
  destruct (fire_effect t s) as [_ [_ E]].
  destruct (action t) eqn:A; [unfold has_action in H; now rewrite A in H| |];
    destruct E as [-> _]; (split; [apply displayState_flag|]);
    apply displayState_suppressed.
Qed.

Lemma fire_reset_flag t s :
  has_action ResetMessage t = true -> flag (Loop.fire host t s) = false.
Proof.
  intros H. unfold flag. destruct (fire_effect t s) as [_ [_ E]].
  destruct (action t) eqn:A; try (unfold has_action in H; now rewrite A in H).
  now destruct E as [-> _].
Qed.

Lemma tick_unfold s :
  Loop.tick host s =
  fold_left (Loop.turn host)
    (filter (Timers.is_due (Timers.elapse (window (env s))))
            (timers (window (env s))))
    (Loop.with_env (with_window (Timers.elapse (window (env s))) (env s)) s).
Proof. reflexivity. Qed.

Lemma turns_invariant (P : System -> Prop) (Q : Timer -> Prop) l :
  (forall s t, P s -> Q t -> P (Loop.fire host t s)) ->
  Forall Q l -> forall s, P s -> P (fold_left (Loop.turn host) l s).
Proof.
  intros Hf Hl. induction Hl as [|t l Ht _ IH]; intros s Hs; [assumption|].
  cbn [fold_left]. apply IH. unfold Loop.turn.
  destruct (Timers.armed _ _); [now apply Hf|assumption].
Qed.

Lemma due_timers_quiet a s :
  armed_for a (env s) = [] ->
  Forall (fun t => has_action a t = false)
         (filter (Timers.is_due (Timers.elapse (window (env s))))
                 (timers (window (env s)))).
Proof.
  rewrite armed_for_nil. intros A. apply Forall_forall. intros t Ht.
  apply filter_In in Ht as [Ht _]. now apply A.
Qed.

(** No backup timer: time passes and no cycle starts. *)
Lemma tick_without_backup s :
  armed_for RunBackup (env s) = [] ->
  armed_for RunBackup (env (Loop.tick host s)) = [] /\
  issued (Loop.tick host s) = issued s /\
  pending (Loop.tick host s) = pending s.
Proof.
  intros A. rewrite tick_unfold.
  apply (turns_invariant
           (fun s' => armed_for RunBackup (env s') = [] /\
                      issued s' = issued s /\ pending s' = pending s)
           (fun t => has_action RunBackup t = false)).
  - intros s' t [A' [I P]] Q. split; [now apply fire_armed_for_nil|].
    destruct (fire_effect t s') as [_ [_ E]].
    destruct (action t) eqn:At;
      try (unfold has_action in Q; now rewrite At in Q);
      destruct E as [_ [-> [-> _]]]; now split.
  - now apply due_timers_quiet.
  - repeat split. exact A.
Qed.

Lemma advance_S k s :
  Loop.advance host (S k) s = Loop.tick host (Loop.advance host k s).
Proof. reflexivity. Qed.

Lemma advance_without_backup s k :
  armed_for RunBackup (env s) = [] ->
  armed_for RunBackup (env (Loop.advance host k s)) = [] /\
  issued (Loop.advance host k s) = issued s /\
  pending (Loop.advance host k s) = pending s.
Proof.
  intros A. induction k as [|k [A' [I P]]]; [now repeat split|].
  rewrite advance_S.
  destruct (tick_without_backup _ A') as [A'' [I' P']].
  repeat split; [assumption|congruence|congruence].
Qed.

(** No reset pending and the flag set: the status bar stays as it is. *)
Lemma tick_without_reset s :
  flag s = true -> armed_for ResetMessage (env s) = [] ->
  armed_for ResetMessage (env (Loop.tick host s)) = [] /\
  statusBar (env (Loop.tick host s)) = statusBar (env s).
Proof.
  intros F A. rewrite tick_unfold.
  apply (turns_invariant
           (fun s' => armed_for ResetMessage (env s') = [] /\
                      statusBar (env s') = statusBar (env s))
           (fun t => has_action ResetMessage t = false)).
  - intros s' t [A' B] Q. split; [now apply fire_armed_for_nil|].
    destruct (fire_flag t s' Q) as [_ K]. rewrite K; [assumption|].
    unfold flag in *. now rewrite B.
  - now apply due_timers_quiet.
  - split; [exact A|reflexivity].
Qed.

Lemma advance_without_reset s k :
  flag s = true -> armed_for ResetMessage (env s) = [] ->
  armed_for ResetMessage (env (Loop.advance host k s)) = [] /\
  statusBar (env (Loop.advance host k s)) = statusBar (env s).
Proof.
  intros F A. induction k as [|k [A' B]]; [now split|].
  rewrite advance_S.
  destruct (tick_without_reset (Loop.advance host k s)) as [A'' B'];
    [unfold flag in *; now rewrite B|assumption|].
  split; [assumption|congruence].
Qed.

Section OneMessage.
Variable R : Timer.
Variable B : StatusBarData.
Hypothesis R_timeout : period R = None.
Hypothesis R_reset : has_action ResetMessage R = true.
Hypothesis B_flag : isDisplayingMessage B = true.

Lemma waiting_others s t :
  waiting R B s -> In t (timers (window (env s))) -> t = R \/ other_timer R t.
Proof.
  intros [_ [_ U]] Ht. destruct (Z.eq_dec (tid t) (tid R)) as [E|N].
  - left. apply U; auto.
  - destruct (has_action ResetMessage t) eqn:A.
    + left. apply U; auto.
    + right. now split.
Qed.

Lemma fire_other_waiting t s :
  waiting R B s -> other_timer R t -> waiting R B (Loop.fire host t s).
Proof.
  intros [Hb [Hin U]] [N A]. split; [|split].
  - destruct (fire_flag t s A) as [_ K]. rewrite K; [assumption|].
    unfold flag. now rewrite Hb.
  - rewrite fire_window. apply rearm_keeps; [assumption|congruence].
  - intros u Hu C. rewrite fire_window in Hu.
    apply rearm_In in Hu as [[Hu _]|[u0 [p [Hu0 [E [_ ->]]]]]].
    + now apply U.
    + exfalso. cbn [tid] in C. rewrite has_action_rearmed in C.
      apply N. rewrite <- E. f_equal. apply U; [assumption|].
      destruct C as [C|C]; [left; congruence|now right].
Qed.

Lemma fire_reset_resumed s :
  waiting R B s -> resumed (Loop.fire host R s).
Proof.
  intros [_ [_ U]]. split; [now apply fire_reset_flag|].
  apply armed_for_nil. intros u Hu. rewrite fire_window in Hu.
  apply rearm_In in Hu as [[Hu N]|[u0 [p [Hu0 [E [P _]]]]]].
  - destruct (has_action ResetMessage u) eqn:A; [|reflexivity].
    exfalso. apply N. f_equal. apply U; auto.
  - rewrite (U u0 Hu0 (or_introl E)) in P. congruence.
Qed.

Lemma fire_resumed t s : resumed s -> resumed (Loop.fire host t s).
Proof.
  intros [F A]. split; [|now apply fire_armed_for_nil].
  destruct (has_action ResetMessage t) eqn:H.
  - now apply fire_reset_flag.
  - destruct (fire_flag t s H) as [-> _]. assumption.
Qed.

Lemma turns_resumed l s : resumed s -> resumed (fold_left (Loop.turn host) l s).
Proof.
  apply (turns_invariant resumed (fun _ => True)).
  - intros s' t Hs _. now apply fire_resumed.
  - apply Forall_forall. trivial.
Qed.

Lemma waiting_armed s :
  waiting R B s -> Timers.armed (tid R) (window (env s)) = true.
Proof.
  intros [_ [Hin _]]. unfold Timers.armed. apply existsb_exists.
  exists R. split; [assumption|apply Z.eqb_refl].
Qed.

Lemma turns_waiting l :
  Forall (fun t => t = R \/ other_timer R t) l ->
  forall s, waiting R B s ->
            (In R l -> resumed (fold_left (Loop.turn host) l s)) /\
            (~ In R l -> waiting R B (fold_left (Loop.turn host) l s)).
Proof.
  induction 1 as [|t l Ht _ IH]; intros s W.
  - split; [intros []|intros _; assumption].
  - cbn [fold_left]. destruct Ht as [->|O].
    + assert (Rs : resumed (Loop.turn host s R)).
      { unfold Loop.turn. rewrite (waiting_armed s W).
        now apply fire_reset_resumed. }
      split; [intros _; now apply turns_resumed|].
      intros N. exfalso. apply N. now left.
    + assert (W' : waiting R B (Loop.turn host s t)).
      { unfold Loop.turn. destruct (Timers.armed _ _); [|assumption].
        now apply fire_other_waiting. }
      destruct (IH _ W') as [I1 I2]. split.
      * intros [E|Hin]; [|now apply I1].
        exfalso. destruct O as [N _]. apply N. now rewrite E.
      * intros N. apply I2. intros Hin. apply N. now right.
Qed.

Lemma tick_now s :
  now (window (env (Loop.tick host s))) = (now (window (env s)) + 1)%Z.
Proof.
  rewrite tick_unfold.
  apply (turns_invariant
           (fun s' => now (window (env s')) = (now (window (env s)) + 1)%Z)
           (fun _ => True)).
  - intros s' t E _. now rewrite fire_window, rearm_now.
  - apply Forall_forall. trivial.
  - reflexivity.
Qed.

Lemma elapse_waiting s :
  waiting R B s ->
  waiting R B
    (Loop.with_env (with_window (Timers.elapse (window (env s))) (env s)) s).
Proof. intros W. exact W. Qed.

Lemma tick_waiting s :
  waiting R B s ->
  ((now (window (env s)) + 1 < due R)%Z -> waiting R B (Loop.tick host s)) /\
  ((due R <= now (window (env s)) + 1)%Z -> resumed (Loop.tick host s)).
Proof.
  intros W. rewrite tick_unfold.
  set (w := Timers.elapse (window (env s))).
  destruct (turns_waiting (filter (Timers.is_due w) (timers (window (env s)))))
    with (s := Loop.with_env (with_window w (env s)) s) as [I1 I2].
  - apply Forall_forall. intros t Ht. apply filter_In in Ht as [Ht _].
    now apply (waiting_others s).
  - now apply elapse_waiting.
  - split; intros D.
    + apply I2. intros Hin. apply filter_In in Hin as [_ Hd].
      unfold Timers.is_due in Hd. apply Z.leb_le in Hd.
      subst w. cbn [now Timers.elapse] in Hd. lia.
    + apply I1. apply filter_In. split; [apply W|].
      unfold Timers.is_due. apply Z.leb_le. subst w.
      cbn [now Timers.elapse]. lia.
Qed.

Lemma tick_resumed s : resumed s -> resumed (Loop.tick host s).
Proof. intros Rs. rewrite tick_unfold. now apply turns_resumed. Qed.

Lemma advance_now k s :
  now (window (env (Loop.advance host k s))) =
  (now (window (env s)) + Z.of_nat k)%Z.
Proof.
  induction k as [|k IH]; [cbn; lia|].
  rewrite advance_S, tick_now, IH. lia.
Qed.

Lemma advance_waiting s k :
  waiting R B s -> (now (window (env s)) < due R)%Z ->
  ((now (window (env s)) + Z.of_nat k < due R)%Z ->
   waiting R B (Loop.advance host k s)) /\
  ((due R <= now (window (env s)) + Z.of_nat k)%Z ->
   resumed (Loop.advance host k s)).
Proof.
  intros W D. induction k as [|k [IHw IHr]].
  - split; [intros _; exact W|cbn; lia].
  - rewrite advance_S. split; intros H.
    + apply tick_waiting; [apply IHw; lia|]. rewrite advance_now. lia.
    + destruct (Z.lt_ge_cases (now (window (env s)) + Z.of_nat k) (due R))
        as [L|G].
      * apply tick_waiting; [now apply IHw|]. rewrite advance_now. lia.
      * apply tick_resumed. now apply IHr.
Qed.

End OneMessage.

(** A message with a positive timeout arms its reset and waits for it. *)
Lemma displayMessage_waiting s message d :
  (0 < d)%Z ->
  armed_for ResetMessage (env s) = [] ->
  (forall u, In u (timers (window (env s))) ->
             (tid u < nextId (window (env s)))%Z) ->
  waiting
    (mkTimer (nextId (window (env s))) (now (window (env s)) + d) None
             ResetMessage)
    (mkStatusBar true ("git: " ++ JS.slice0 100 message))
    (Loop.with_env
       (ObsidianGit.statusBar_displayMessage message d (env s)) s).
Proof.
  intros D A F. unfold ObsidianGit.statusBar_displayMessage,
    StatusBar.displayMessage.
  destruct (Z.eqb_spec d 0) as [|_]; [lia|].
  destruct (Z.ltb_spec 0 d) as [_|]; [|lia].
  cbn [negb andb snd Timers.setTimeout Loop.with_env env with_window
       with_statusBar].
  unfold Timers.delay_of. rewrite Z.max_r by lia.
  split; [reflexivity|]. cbn [window timers]. split.
  - apply in_or_app. right. now left.
  - intros u Hu C. apply in_app_or in Hu as [Hu|[<-|[]]]; [|reflexivity].
    exfalso. destruct C as [C|C].
    + cbn [tid] in C. specialize (F u Hu). lia.
    + apply armed_for_nil with (u := u) in A; [congruence|assumption].
Qed.

(** C4, amended. No way of starting a cycle looks at the plugin state: the
    command "pull", the command "commit all changes and push" and the backup
    timer each start a new cycle whatever the state is and whatever cycles
    are suspended at a request; the new cycle sets the state to its first
    phase and sends its first request, so several cycles can be under way at
    once. *)
Theorem cycles_start_unconditionally s :
  (let s' := Loop.step host PullCommand s in
   state (env s') = PluginState.pull /\
   issued s' = (issued s ++ [Pull])%list /\
   map request (pending s') = (map request (pending s) ++ [Pull])%list) /\
  (let s' := Loop.step host PushCommand s in
   state (env s') = PluginState.status /\
   issued s' = (issued s ++ [Status])%list /\
   map request (pending s') = (map request (pending s) ++ [Status])%list) /\
  (forall t, has_action RunBackup t = true ->
     let s' := Loop.fire host t s in
     state (env s') = PluginState.status /\
     issued s' = (issued s ++ [Status])%list /\
     map request (pending s') = (map request (pending s) ++ [Status])%list).
Proof.
  split; [|split].
  - cbn. now rewrite map_app.
  - cbn. now rewrite map_app.
  - intros t A. destruct (fire_effect t s) as [_ [_ E]].
    destruct (action t) eqn:At; unfold has_action in A; rewrite At in A;
      try discriminate.
    destruct E as [_ [P [I S]]]. now repeat split.
Qed.

(** A message on its own: when it is displayed with a positive timeout
    while no reset of another message is pending, and nothing but time
    passes, the flag stays set and the bar as the message left it until the
    timeout has elapsed; from then on the flag is down. *)
Lemma lone_message_stays :
  (forall st lu w b,
     isDisplayingMessage b = true ->
     StatusBar.displayState host st lu w b = b) /\
  (forall s message d k,
     (0 < d)%Z ->
     armed_for ResetMessage (env s) = [] ->
     (forall u, In u (timers (window (env s))) ->
                (tid u < nextId (window (env s)))%Z) ->
     let s1 := Loop.with_env
                 (ObsidianGit.statusBar_displayMessage message d (env s)) s in
     ((Z.of_nat k < d)%Z ->
      statusBar (env (Loop.advance host k s1)) =
        mkStatusBar true ("git: " ++ JS.slice0 100 message)) /\
     ((d <= Z.of_nat k)%Z -> flag (Loop.advance host k s1) = false)) /\
  (forall st lu w b,
     isDisplayingMessage b = false ->
     StatusBar.displayState host st lu w b =
     StatusBar.displayState host st lu w (mkStatusBar false "")).
Proof.
  split; [exact displayState_suppressed|].
  split; [|exact displayState_resumes].
  intros s message d k D A F s1.
  pose proof (displayMessage_waiting s message d D A F) as W.
  fold s1 in W.
  assert (N : now (window (env s1)) = now (window (env s))).
  { subst s1. unfold ObsidianGit.statusBar_displayMessage,
      StatusBar.displayMessage.
    destruct (negb _ && _); reflexivity. }
  destruct (advance_waiting
              (mkTimer (nextId (window (env s))) (now (window (env s)) + d)
                       None ResetMessage)
              (mkStatusBar true ("git: " ++ JS.slice0 100 message))
              eq_refl eq_refl eq_refl s1 k W) as [Hw Hr].
  - cbn [due]. lia.
  - cbn [due] in Hw, Hr. split; intros H.
    + apply Hw. lia.
    + apply Hr. lia.
Qed.

(** A message displayed with a non-positive timeout, the default of
    [displayError], sets the flag and schedules no reset; while the flag is
    set the phase display does nothing; and as long as no reset is pending,
    the passing of time changes neither the flag nor the text of the bar. *)
Lemma sticky_message_suppresses :
  (forall message d b w,
     (d <= 0)%Z ->
     StatusBar.displayMessage message d b w =
     (mkStatusBar true ("git: " ++ JS.slice0 100 message), w)) /\
  (forall message e,
     let e' := ObsidianGit.displayError message ObsidianGit.errorTimeout e in
     isDisplayingMessage (statusBar e') = true /\ window e' = window e) /\
  (forall st lu w b,
     isDisplayingMessage b = true ->
     StatusBar.displayState host st lu w b = b) /\
  (forall s k,
     flag s = true -> armed_for ResetMessage (env s) = [] ->
     statusBar (env (Loop.advance host k s)) = statusBar (env s) /\
     armed_for ResetMessage (env (Loop.advance host k s)) = []).
Proof.
  split; [|split; [|split]].
  - intros message d b w D. unfold StatusBar.displayMessage.
    destruct (Z.ltb_spec 0 d) as [|_]; [lia|]. now rewrite andb_false_r.
  - intros message e. split; reflexivity.
  - exact displayState_suppressed.
  - intros s k F A. destruct (advance_without_reset s k F A). now split.
Qed.

End Timing.

Lemma cycles_start_unconditionally_witness :
  let s := Loop.step Sample.host PullCommand Sample.idleSystem in
  let t := mkTimer 2 60000 (Some 60000%Z) RunBackup in
  let s' := Loop.fire Sample.host t s in
  state (env s') = PluginState.status /\
  issued s' = (issued s ++ [Status])%list /\
  map request (pending s') = (map request (pending s) ++ [Status])%list.
Proof.
  apply (cycles_start_unconditionally
           Sample.host (Loop.step Sample.host PullCommand Sample.idleSystem)).
  reflexivity.
Defined.

(** C4 as stated fails: the command "commit all changes and push" starts a
    backup cycle while the pull cycle started before it is still waiting for
    its reply and the plugin state is pull, not idle; two cycles are then
    under way. *)
Lemma overlapping_cycles :
  let s1 := Loop.step Sample.host PullCommand Sample.idleSystem in
  let s2 := Loop.step Sample.host PushCommand s1 in
  state (env s1) = PluginState.pull /\
  map request (pending s1) = [Pull] /\
  map request (pending s2) = [Pull; Status] /\
  state (env s2) = PluginState.status.
Proof. vm_compute. repeat split. Qed.

Lemma lone_message_stays_witness :
  let s := Sample.idleSystem in
  let s1 := Loop.with_env
              (ObsidianGit.statusBar_displayMessage
                 "committed 2 files" 4000 (env s)) s in
  StatusBar.displayState Sample.host PluginState.push None (window (env s1))
                         (statusBar (env s1)) = statusBar (env s1) /\
  statusBar (env (Loop.advance Sample.host 3999 s1)) =
    mkStatusBar true ("git: " ++ JS.slice0 100 "committed 2 files") /\
  flag (Loop.advance Sample.host 4000 s1) = false /\
  StatusBar.displayState Sample.host PluginState.push None
    (window (env (Loop.advance Sample.host 4000 s1)))
    (statusBar (env (Loop.advance Sample.host 4000 s1))) =
  mkStatusBar false "git: pushing changes..".
Proof.
  assert (F : forall u,
             In u (timers (window (env Sample.idleSystem))) ->
             (tid u < nextId (window (env Sample.idleSystem)))%Z).
  { intros u [<-|[]]. reflexivity. }
  split; [|split; [|split]].
  - apply (proj1 (lone_message_stays Sample.host)).
    reflexivity.
  - apply (proj1 (proj2 (lone_message_stays Sample.host))
                 Sample.idleSystem "committed 2 files" 4000%Z 3999);
      [reflexivity|reflexivity|exact F|reflexivity].
  - apply (proj1 (proj2 (lone_message_stays Sample.host))
                 Sample.idleSystem "committed 2 files" 4000%Z 4000);
      [reflexivity|reflexivity|exact F|discriminate].
  - rewrite (proj2 (proj2 (lone_message_stays Sample.host)));
      [reflexivity|].
    apply (proj1 (proj2 (lone_message_stays Sample.host))
                 Sample.idleSystem "committed 2 files" 4000%Z 4000);
      [reflexivity|reflexivity|exact F|discriminate].
Defined.


Lemma sticky_message_suppresses_witness :
  let s0 := Sample.idleSystem in
  let s := Loop.with_env
             (ObsidianGit.displayError "Push failed" ObsidianGit.errorTimeout
                                       (env s0)) s0 in
  StatusBar.displayMessage "push failed" 0 (statusBar (env s0))
                           (window (env s0)) =
    (mkStatusBar true "git: push failed", window (env s0)) /\
  StatusBar.displayState Sample.host PluginState.push None (window (env s))
                         (statusBar (env s)) = statusBar (env s) /\
  statusBar (env (Loop.advance Sample.host 5000 s)) = statusBar (env s) /\
  armed_for ResetMessage (env (Loop.advance Sample.host 5000 s)) = [].
Proof.
  split; [|split].
  - apply (proj1 (sticky_message_suppresses Sample.host)). discriminate.
  - apply (proj1 (proj2 (proj2 (sticky_message_suppresses Sample.host)))).
    reflexivity.
  - apply (proj2 (proj2 (proj2 (sticky_message_suppresses Sample.host))));
      reflexivity.
Defined.

(** C10. The code misses what the claim says. The command "commit all
    changes and push" commits one file and the push fails at once: the
    error is displayed with timeout 0, which sets the flag and arms no
    reset, and no message follows it. Yet the reset armed by the message
    "Committed 1 files", the only one pending, fires four seconds later and
    lowers the flag that the two messages share, and the next refresh
    writes the phase over the error. *)
Theorem earlier_reset_resumes :
  let committed := Loop.steps Sample.host (removelast Sample.pushFails)
                              Sample.idleSystem in
  let failed := Loop.steps Sample.host Sample.pushFails Sample.idleSystem in
  let later := Loop.advance Sample.host (Z.to_nat 5000) failed in
  text (statusBar (env committed)) = "git: committed 1 files" /\
  map due (armed_for ResetMessage (env committed)) = [4000%Z] /\
  flag failed = true /\
  text (statusBar (env failed)) = "git: push failed network error" /\
  armed_for ResetMessage (env failed) =
    armed_for ResetMessage (env committed) /\
  notices (env later) = notices (env failed) /\
  flag later = false /\
  text (statusBar (env later)) = "git: pushing changes..".
Proof. vm_compute. repeat split. Qed.

(** ** The backup timer *)

Section Scheduling.
Variable host : Host.

Lemma NoDup_map_filter {A B} (f : A -> B) (p : A -> bool) l :
  NoDup (map f l) -> NoDup (map f (filter p l)).
Proof.
  induction l as [|x l IH]; cbn; intros H; [constructor|].
  inversion H as [|? ? Hx Hl]; subst.
  destruct (p x); cbn; [constructor|]; auto.
  intros Hin. apply Hx. apply in_map_iff in Hin as [y [E Hy]].
  apply in_map_iff. exists y. split; [assumption|].
  now apply filter_In in Hy as [Hy _].
Qed.

(** After [disableAutoBackup] no backup timer is armed. *)
Lemma disableAutoBackup_clears e :
  timers_tracked e ->
  let e' := snd (ObsidianGit.disableAutoBackup e) in
  armed_for RunBackup e' = [] /\ timers_tracked e' /\
  intervalID e' = intervalID e /\ settings e' = settings e /\
  nextId (window e') = nextId (window e) /\ now (window e') = now (window e).
Proof.
  intros T. unfold ObsidianGit.disableAutoBackup.
  destruct (truthy (intervalID e)) eqn:Tr.
  - destruct (intervalID e) as [id|] eqn:I; [|discriminate]. cbn [snd].
    split; [|split; [|repeat split; try reflexivity; exact I]].
    + apply armed_for_nil. cbn [window with_window timers Timers.clearInterval].
      intros u Hu. apply filter_In in Hu as [Hu N].
      destruct (has_action RunBackup u) eqn:A; [|reflexivity].
      pose proof (backup_named e T u Hu A) as E. rewrite I in E.
      injection E as ->. rewrite Z.eqb_refl in N. discriminate.
    + constructor;
        cbn [window with_window timers nextId intervalID
             Timers.clearInterval].
      * apply T.
      * intros t Ht. apply filter_In in Ht as [Ht _]. now apply T.
      * apply NoDup_map_filter, T.
      * intros t Ht A. apply filter_In in Ht as [Ht N].
        pose proof (backup_named e T t Ht A) as E. rewrite I in E.
        injection E as ->. rewrite Z.eqb_refl in N. discriminate.
  - cbn [snd]. split; [|split; [exact T|now repeat split]].
    apply armed_for_nil. intros u Hu.
    destruct (has_action RunBackup u) eqn:A; [|reflexivity].
    pose proof (backup_named e T u Hu A) as E.
    pose proof (handles_bounded e T u Hu) as P.
    rewrite E in Tr. cbn in Tr. apply negb_false_iff, Z.eqb_eq in Tr. lia.
Qed.

(** [enableAutoBackup] arms one backup timer whose period is the interval
    in milliseconds. *)
Lemma enableAutoBackup_arms e :
  timers_tracked e -> armed_for RunBackup e = [] ->
  (0 < autoSaveInterval (settings e))%Z ->
  let e' := ObsidianGit.enableAutoBackup e in
  let ms := (autoSaveInterval (settings e) * 60000)%Z in
  armed_for RunBackup e' =
    [mkTimer (nextId (window e)) (now (window e) + ms) (Some ms) RunBackup] /\
  timers_tracked e' /\ settings e' = settings e.
Proof.
  intros T A P. cbn zeta. unfold ObsidianGit.enableAutoBackup.
  cbn [Timers.setInterval].
  split; [|split; [|reflexivity]].
  - unfold armed_for in *. cbn [window with_window with_intervalID timers].
    rewrite filter_app, A. cbn.
    unfold Timers.delay_of. now rewrite Z.max_r by lia.
  - constructor;
      cbn [window with_window with_intervalID timers nextId intervalID].
    + pose proof (next_positive e T). lia.
    + intros t Ht. apply in_app_or in Ht as [Ht|[<-|[]]].
      * pose proof (handles_bounded e T t Ht). lia.
      * cbn. pose proof (next_positive e T). lia.
    + rewrite map_app. cbn [map tid]. apply NoDup_app.
      * apply T.
      * constructor; [intros []|constructor].
      * intros z Hz [<-|[]]. apply in_map_iff in Hz as [t [E Ht]].
        pose proof (handles_bounded e T t Ht). lia.
    + intros t Ht H. apply in_app_or in Ht as [Ht|[<-|[]]].
      * apply armed_for_nil with (u := t) in A; [congruence|assumption].
      * reflexivity.
Qed.
Lemma tracked_frame e e' :
  window e' = window e -> intervalID e' = intervalID e ->
  timers_tracked e -> timers_tracked e'.
Proof.
  intros W I [P B D N]. constructor; rewrite ?W, ?I; assumption.
Qed.

Lemma intervalOnChange_disabled value n e :
  timers_tracked e -> Number host value = Some n -> (n <= 0)%Z ->
  let e' := ObsidianGitSettingsTab.intervalOnChange host value e in
  armed_for RunBackup e' = [] /\ timers_tracked e' /\
  autoSaveInterval (settings e') = n.
Proof.
  intros T N L. cbn zeta. unfold ObsidianGitSettingsTab.intervalOnChange.
  rewrite N. set (e1 := saveData _).
  assert (S1 : autoSaveInterval (settings e1) = n) by reflexivity.
  assert (T1 : timers_tracked e1) by now apply (tracked_frame e).
  rewrite S1.
  destruct (Z.ltb_spec 0 n) as [|_]; [lia|].
  destruct (Z.leb_spec n 0) as [_|]; [|lia]. cbn [andb].
  destruct (truthy (intervalID e1)) eqn:Tr.
  - destruct (disableAutoBackup_clears e1 T1) as [A [T' [_ [S _]]]].
    destruct (ObsidianGit.disableAutoBackup e1) as [[|] e2]; cbn [snd] in *.
    + split; [exact A|]. split; [now apply (tracked_frame e2)|].
      cbn [Notice settings]. now rewrite S.
    + split; [exact A|]. split; [exact T'|]. now rewrite S.
  - split; [|split; [exact T1|exact S1]].
    apply armed_for_nil. intros u Hu.
    destruct (has_action RunBackup u) eqn:A; [|reflexivity].
    pose proof (backup_named e1 T1 u Hu A) as E.
    pose proof (handles_bounded e1 T1 u Hu) as P.
    rewrite E in Tr. cbn in Tr.
    apply negb_false_iff, Z.eqb_eq in Tr. lia.
Qed.

Lemma intervalOnChange_enabled value n e :
  timers_tracked e -> Number host value = Some n -> (0 < n)%Z ->
  let e' := ObsidianGitSettingsTab.intervalOnChange host value e in
  armed_for RunBackup e' =
    [mkTimer (nextId (window e)) (now (window e) + n * 60000)
             (Some (n * 60000)%Z) RunBackup] /\
  timers_tracked e' /\ autoSaveInterval (settings e') = n.
Proof.
  intros T N L. cbn zeta. unfold ObsidianGitSettingsTab.intervalOnChange.
  rewrite N. set (e1 := saveData _).
  assert (S1 : autoSaveInterval (settings e1) = n) by reflexivity.
  assert (T1 : timers_tracked e1) by now apply (tracked_frame e).
  rewrite S1. destruct (Z.ltb_spec 0 n) as [_|]; [|lia].
  destruct (disableAutoBackup_clears e1 T1) as [A [T' [_ [S [X Y]]]]].
  set (e2 := snd (ObsidianGit.disableAutoBackup e1)) in *.
  assert (P : (0 < autoSaveInterval (settings e2))%Z) by (rewrite S; lia).
  destruct (enableAutoBackup_arms e2 T' A P) as [A' [T'' S']].
  rewrite S, S1, X, Y in A'.
  split; [exact A'|].
  split; [now apply (tracked_frame (ObsidianGit.enableAutoBackup e2))|].
  cbn [Notice settings]. now rewrite S', S.
Qed.

(** A value that is not a number changes nothing but the notices. *)
Lemma intervalOnChange_invalid value e :
  Number host value = None ->
  ObsidianGitSettingsTab.intervalOnChange host value e =
  Notice "Please specify a valid number." e.
Proof.
  intros N. unfold ObsidianGitSettingsTab.intervalOnChange. now rewrite N.
Qed.

Lemma bindStep_keeps {A B} P (s : Step A) (f : A -> Async B) :
  keeps P s -> (forall a e, P e -> keeps P (f a e)) ->
  keeps P (bindStep s f).
Proof.
  intros Hs Hf. induction s as [[a|x] e|c k IH e]; cbn in *.
  - now apply Hf.
  - assumption.
  - destruct Hs as [He Hk]. split; [assumption|].
    intros r e' He'. apply IH. now apply Hk.
Qed.

Lemma bind_keeps {A B} P (m : Async A) (f : A -> Async B) e :
  keeps P (m e) -> (forall a e', P e' -> keeps P (f a e')) ->
  keeps P (bind m f e).
Proof. apply bindStep_keeps. Qed.

Lemma setState_tracked st e :
  timers_tracked e -> timers_tracked (ObsidianGit.setState host st e).
Proof. now apply tracked_frame. Qed.

Lemma statusBar_displayMessage_tracked m t e :
  timers_tracked e ->
  timers_tracked (ObsidianGit.statusBar_displayMessage m t e).
Proof.
  intros T. unfold ObsidianGit.statusBar_displayMessage,
    StatusBar.displayMessage.
  destruct (negb _ && _); [|now apply (tracked_frame e)].
  constructor; cbn.
  - pose proof (next_positive e T). lia.
  - intros u Hu. apply in_app_or in Hu as [Hu|[<-|[]]].
    + pose proof (handles_bounded e T u Hu). lia.
    + cbn. pose proof (next_positive e T). lia.
  - rewrite map_app. cbn. apply NoDup_app.
    + apply T.
    + constructor; [intros []|constructor].
    + intros z Hz [<-|[]]. apply in_map_iff in Hz as [u [E Hu]].
      pose proof (handles_bounded e T u Hu). lia.
  - intros u Hu A. apply in_app_or in Hu as [Hu|[<-|[]]].
    + now apply (backup_named e T).
    + discriminate.
Qed.

Lemma displayMessage_tracked m t e :
  timers_tracked e -> timers_tracked (ObsidianGit.displayMessage m t e).
Proof.
  intros T. unfold ObsidianGit.displayMessage.
  apply (tracked_frame
           (ObsidianGit.statusBar_displayMessage (JS.toLowerCase m) t e)).
  - now destruct (negb _).
  - now destruct (negb _).
  - now apply statusBar_displayMessage_tracked.
Qed.

Lemma displayError_tracked m t e :
  timers_tracked e -> timers_tracked (ObsidianGit.displayError m t e).
Proof.
  intros T. apply statusBar_displayMessage_tracked.
  now apply (tracked_frame e).
Qed.

Ltac keeps_tac :=
  repeat first
    [ assumption
    | apply setState_tracked
    | apply displayMessage_tracked
    | apply displayError_tracked
    | apply bind_keeps
    | progress intros
    | progress (unfold reading; cbn [keeps sync ret await_git])
    | match goal with
      | |- _ /\ _ => split
      | |- keeps _ (match ?r with Ok _ => _ | Fail _ => _ end) => destruct r
      | |- keeps _ ((if ?b then _ else _) _) => destruct b
      | |- timers_tracked ((if ?b then _ else _) _) => destruct b
      | |- timers_tracked (with_lastUpdate _ ?e0) =>
          apply (tracked_frame e0); [reflexivity|reflexivity|]
      end ].

Lemma createBackup_keeps e :
  timers_tracked e -> keeps timers_tracked (ObsidianGit.createBackup host e).
Proof.
  intros T. unfold ObsidianGit.createBackup, ObsidianGit.getFilesChanged,
    ObsidianGit.add, ObsidianGit.commit, ObsidianGit.push,
    ObsidianGit.formatCommitMessage.
  keeps_tac.
Qed.

Lemma pullCommand_keeps e :
  timers_tracked e -> keeps timers_tracked (ObsidianGit.pullCommand host e).
Proof.
  intros T. unfold ObsidianGit.pullCommand, ObsidianGit.pullChangesFromRemote,
    ObsidianGit.pull.
  keeps_tac.
Qed.

Lemma pushCommand_keeps e :
  timers_tracked e -> keeps timers_tracked (ObsidianGit.pushCommand host e).
Proof.
  intros T. unfold ObsidianGit.pushCommand, ObsidianGit.getFilesChanged.
  keeps_tac.
Qed.

Lemma spawn_well_tracked st s :
  keeps timers_tracked st -> Forall (fun p => forall r e, timers_tracked e ->
                               keeps timers_tracked (resume p r e))
         (pending s) -> well_tracked (Loop.spawn st s).
Proof.
  intros K F. destruct st as [[a|x] e|c k e]; cbn in *.
  - now split.
  - now split.
  - destruct K as [T K]. split; [assumption|]. cbn.
    apply Forall_app. split; [assumption|]. constructor; [|constructor].
    exact K.
Qed.

Lemma NoDup_map_rearm t w :
  NoDup (map tid (timers w)) -> NoDup (map tid (timers (Timers.rearm t w))).
Proof.
  unfold Timers.rearm; cbn [timers].
  induction (timers w) as [|u l IH]; cbn; intros H; [constructor|].
  inversion H as [|? ? Hu Hl]; subst. specialize (IH Hl).
  assert (N : forall v, In v (flat_map
             (fun u0 => if (tid u0 =? tid t)%Z
                        then match period u0 with
                             | Some p => [mkTimer (tid u0)
                                            (now w + Timers.delay_of p)
                                            (Some p) (action u0)]
                             | None => []
                             end
                        else [u0]) l) -> In (tid v) (map tid l)).
  { intros v Hv. apply in_flat_map in Hv as [u0 [H0 Hv]].
    apply in_map_iff. exists u0. split; [|assumption].
    destruct (tid u0 =? tid t)%Z; [destruct (period u0)|];
      cbn in Hv; try (destruct Hv as [<-|[]]; reflexivity). destruct Hv. }
  destruct (tid u =? tid t)%Z; [destruct (period u)|]; cbn;
    try assumption; constructor; try assumption;
    intros Hin; apply Hu; apply in_map_iff in Hin as [v [E Hv]];
    rewrite <- E; now apply N.
Qed.

Lemma rearm_tracked t e :
  timers_tracked e ->
  timers_tracked (with_window (Timers.rearm t (window e)) e).
Proof.
  intros T. constructor; cbn [window with_window intervalID].
  - apply T.
  - intros u Hu. cbn [nextId Timers.rearm].
    apply rearm_In in Hu as [[Hu _]|[u0 [p [Hu0 [_ [_ ->]]]]]].
    + now apply T.
    + cbn. now apply T.
  - apply NoDup_map_rearm, T.
  - intros u Hu A.
    apply rearm_In in Hu as [[Hu _]|[u0 [p [Hu0 [_ [_ ->]]]]]].
    + now apply (backup_named e T).
    + cbn. now apply (backup_named e T).
Qed.

Lemma fire_well_tracked t s :
  well_tracked s -> well_tracked (Loop.fire host t s).
Proof.
  intros [T F]. unfold Loop.fire.
  pose proof (rearm_tracked t (env s) T) as T'.
  destruct (action t).
  - split; [|exact F]. revert T'. now apply tracked_frame.
  - split; [|exact F]. revert T'. now apply tracked_frame.
  - apply spawn_well_tracked; [now apply createBackup_keeps|exact F].
Qed.

Lemma tick_well_tracked s :
  well_tracked s -> well_tracked (Loop.tick host s).
Proof.
  intros [T F]. rewrite tick_unfold.
  apply (turns_invariant host well_tracked (fun _ => True)).
  - intros s' t W _. now apply fire_well_tracked.
  - apply Forall_forall. trivial.
  - split; [|exact F]. destruct T as [P B D N]. now constructor.
Qed.

Lemma remove_nth_Forall {A} (P : A -> Prop) i l :
  Forall P l -> Forall P (Loop.remove_nth i l).
Proof.
  intros H. revert i. induction H as [|x l Hx Hl IH]; intros [|i]; cbn;
    try assumption; constructor; auto.
Qed.

Lemma intervalOnChange_tracked value e :
  timers_tracked e ->
  timers_tracked (ObsidianGitSettingsTab.intervalOnChange host value e).
Proof.
  intros T. destruct (Number host value) as [n|] eqn:N.
  - destruct (Z.lt_ge_cases 0 n).
    + now apply (intervalOnChange_enabled value n e).
    + apply (intervalOnChange_disabled value n e); [assumption..|lia].
  - rewrite (intervalOnChange_invalid value e N).
    now apply (tracked_frame e).
Qed.

Lemma step_well_tracked ev s :
  well_tracked s -> well_tracked (Loop.step host ev s).
Proof.
  intros W. destruct ev as [| | |value|i r]; cbn [Loop.step].
  - now apply tick_well_tracked.
  - destruct W as [T F].
    apply spawn_well_tracked; [now apply pullCommand_keeps|exact F].
  - destruct W as [T F].
    apply spawn_well_tracked; [now apply pushCommand_keeps|exact F].
  - destruct W as [T F]. split; [|exact F].
    now apply intervalOnChange_tracked.
  - destruct (nth_error (pending s) i) as [p|] eqn:E; [|assumption].
    destruct W as [T F]. apply spawn_well_tracked.
    + apply nth_error_In in E.
      rewrite Forall_forall in F. now apply F.
    + now apply remove_nth_Forall.
Qed.

(** Whatever happens, the backup timer stays the one that [intervalID]
    names. *)
Lemma steps_well_tracked evs s :
  well_tracked s -> well_tracked (Loop.steps host evs s).
Proof.
  revert s. induction evs as [|ev evs IH]; intros s W; [assumption|].
  cbn. apply IH. now apply step_well_tracked.
Qed.

(** C5. A value that is a number at most 0 leaves no backup timer armed; a
    positive value arms exactly one, whose period is the value times 60000
    milliseconds; without a backup timer no cycle starts however much time
    passes, while the commands still start one; in particular, whatever
    happened before, after the interval is set to 5 and then to 0 no request
    is sent as time passes. *)
Theorem interval_setting_controls_timer :
  (forall e value n,
     timers_tracked e -> Number host value = Some n -> (n <= 0)%Z ->
     let e' := ObsidianGitSettingsTab.intervalOnChange host value e in
     armed_for RunBackup e' = [] /\ timers_tracked e' /\
     autoSaveInterval (settings e') = n) /\
  (forall e value n,
     timers_tracked e -> Number host value = Some n -> (0 < n)%Z ->
     let e' := ObsidianGitSettingsTab.intervalOnChange host value e in
     armed_for RunBackup e' =
       [mkTimer (nextId (window e)) (now (window e) + n * 60000)
                (Some (n * 60000)%Z) RunBackup] /\
     timers_tracked e' /\ autoSaveInterval (settings e') = n) /\
  (forall s k,
     armed_for RunBackup (env s) = [] ->
     issued (Loop.advance host k s) = issued s /\
     pending (Loop.advance host k s) = pending s /\
     issued (Loop.step host PushCommand (Loop.advance host k s)) =
       (issued s ++ [Status])%list) /\
  (forall s history five zero k,
     well_tracked s ->
     Number host five = Some 5%Z -> Number host zero = Some 0%Z ->
     let s' := Loop.steps host
                 (history ++ [IntervalInput five; IntervalInput zero]) s in
     armed_for RunBackup (env s') = [] /\
     issued (Loop.advance host k s') = issued s' /\
     pending (Loop.advance host k s') = pending s').
Proof.
  split; [|split; [|split]].
  - intros e value n. apply intervalOnChange_disabled.
  - intros e value n. apply intervalOnChange_enabled.
  - intros s k A.
    destruct (advance_without_backup host s k A) as [_ [I P]].
    split; [assumption|]. split; [assumption|]. cbn. now rewrite I.
  - intros s history five zero k W F Z. cbn zeta.
    unfold Loop.steps. rewrite fold_left_app. fold (Loop.steps host history s).
    destruct (steps_well_tracked history s W) as [T _].
    set (s0 := Loop.steps host history s) in *.
    cbn [fold_left Loop.step].
    set (e1 := ObsidianGitSettingsTab.intervalOnChange host five (env s0)).
    destruct (intervalOnChange_enabled five 5%Z (env s0) T F) as [_ [T1 _]];
      [lia|]. fold e1 in T1.
    destruct (intervalOnChange_disabled zero 0%Z e1 T1 Z) as [A _]; [lia|].
    split; [exact A|].
    set (s' := Loop.with_env _ (Loop.with_env e1 s0)).
    destruct (advance_without_backup host s' k A) as [_ [I P]].
    now split.
Qed.

(** C9. An input that is not a number is rejected: the interval, the
    settings, what was saved, the timers and everything else stay as they
    were, and only the notice "Please specify a valid number." is added. *)
Theorem invalid_interval_rejected value e :
  Number host value = None ->
  let e' := ObsidianGitSettingsTab.intervalOnChange host value e in
  autoSaveInterval (settings e') = autoSaveInterval (settings e) /\
  settings e' = settings e /\ saved e' = saved e /\
  window e' = window e /\ intervalID e' = intervalID e /\
  state e' = state e /\ lastUpdate e' = lastUpdate e /\
  statusBar e' = statusBar e /\ console e' = console e /\
  notices e' = (notices e ++ ["Please specify a valid number."])%list.
Proof.
  intros N. cbn zeta. rewrite (intervalOnChange_invalid value e N).
  now repeat split.
Qed.

End Scheduling.

(** The timers are tracked when the plugin has loaded, whatever its
    settings. *)
Lemma booted_tracked s : timers_tracked (Sample.booted s).
Proof.
  unfold Sample.booted.
  set (e0 := ObsidianGit.setState Sample.host PluginState.idle
                                  (Sample.fresh s)).
  assert (T0 : timers_tracked e0).
  { constructor; cbn; [reflexivity|intros t []|constructor|intros t []]. }
  assert (T1 : timers_tracked
                 (if (0 <? autoSaveInterval (settings e0))%Z
                  then ObsidianGit.enableAutoBackup e0 else e0)).
  { destruct (Z.ltb_spec 0 (autoSaveInterval (settings e0))); [|exact T0].
    now apply enableAutoBackup_arms. }
  set (e1 := if (0 <? autoSaveInterval (settings e0))%Z
             then ObsidianGit.enableAutoBackup e0 else e0) in *.
  constructor; cbn [window with_window Timers.setInterval snd timers nextId
                    intervalID].
  - pose proof (next_positive e1 T1). lia.
  - intros u Hu. apply in_app_or in Hu as [Hu|[<-|[]]].
    + pose proof (handles_bounded e1 T1 u Hu). lia.
    + cbn. pose proof (next_positive e1 T1). lia.
  - rewrite map_app. cbn [map tid]. apply NoDup_app.
    + apply T1.
    + constructor; [intros []|constructor].
    + intros z Hz [<-|[]]. apply in_map_iff in Hz as [u [E Hu]].
      pose proof (handles_bounded e1 T1 u Hu). lia.
  - intros u Hu A. apply in_app_or in Hu as [Hu|[<-|[]]].
    + now apply (backup_named e1 T1).
    + discriminate.
Qed.

Lemma idle_well_tracked : well_tracked Sample.idleSystem.
Proof. split; [apply booted_tracked|constructor]. Qed.

Lemma interval_setting_controls_timer_witness :
  let e := Sample.booted Sample.settings0 in
  let s' := Loop.steps Sample.host
              ([PushCommand; Tick; IntervalInput "2"]
                 ++ [IntervalInput "5"; IntervalInput "0"])
              Sample.idleSystem in
  armed_for RunBackup
    (ObsidianGitSettingsTab.intervalOnChange Sample.host "-1" e) = [] /\
  armed_for RunBackup
    (ObsidianGitSettingsTab.intervalOnChange Sample.host "5" e) =
    [mkTimer 2 300000 (Some 300000%Z) RunBackup] /\
  issued (Loop.advance Sample.host (Z.to_nat 600000) Sample.idleSystem) = [] /\
  armed_for RunBackup (env s') = [] /\
  issued (Loop.advance Sample.host (Z.to_nat 600000) s') = issued s' /\
  pending (Loop.advance Sample.host (Z.to_nat 600000) s') = pending s'.
Proof.
  split; [|split; [|split]].
  - apply (proj1 (interval_setting_controls_timer Sample.host)
                 (Sample.booted Sample.settings0) "-1" (-1)%Z
                 (booted_tracked Sample.settings0));
      [reflexivity|discriminate].
  - apply (proj1 (proj2 (interval_setting_controls_timer Sample.host))
                 (Sample.booted Sample.settings0) "5" 5%Z
                 (booted_tracked Sample.settings0));
      reflexivity.
  - apply (proj1 (proj2 (proj2 (interval_setting_controls_timer Sample.host)))
                 Sample.idleSystem (Z.to_nat 600000)).
    reflexivity.
  - apply (proj2 (proj2 (proj2 (interval_setting_controls_timer Sample.host)))
                 Sample.idleSystem [PushCommand; Tick; IntervalInput "2"]
                 "5" "0" (Z.to_nat 600000) idle_well_tracked);
      reflexivity.
Defined.

(** Ten minutes after the interval was set to 5 the timer has started two
    cycles; set to 5 and then to 0, it has started none. *)
Example interval_five_then_zero :
  let ten_minutes := Z.to_nat 600000 in
  issued (Loop.advance Sample.host ten_minutes
            (Loop.steps Sample.host [IntervalInput "5"] Sample.idleSystem)) =
    [Status; Status] /\
  issued (Loop.advance Sample.host ten_minutes
            (Loop.steps Sample.host [IntervalInput "5"; IntervalInput "0"]
                        Sample.idleSystem)) = [].
Proof. vm_compute. split; reflexivity. Qed.

Lemma invalid_interval_rejected_witness :
  let e := Sample.booted Sample.settings0 in
  let e' := ObsidianGitSettingsTab.intervalOnChange Sample.host "abc" e in
  autoSaveInterval (settings e') = autoSaveInterval (settings e) /\
  settings e' = settings e /\ saved e' = saved e /\
  window e' = window e /\ intervalID e' = intervalID e /\
  state e' = state e /\ lastUpdate e' = lastUpdate e /\
  statusBar e' = statusBar e /\ console e' = console e /\
  notices e' = (notices e ++ ["Please specify a valid number."])%list.
Proof.
  apply (invalid_interval_rejected Sample.host "abc"
                                   (Sample.booted Sample.settings0)).
  reflexivity.
Defined.

(** ** What the suspended cycles keep *)

Section Carrying.
Variable host : Host.
Variable P : Env -> Prop.
Hypothesis closed : method_closed host P.

Lemma bindStep_carries {A B} (s : Step A) (f : A -> Async B) :
  (forall a, carried P (f a)) -> carries P s ->
  (P (stops s) -> P (stops (bindStep s f))) /\ carries P (bindStep s f).
Proof.
  intros Hf. induction s as [[a|x] e|c k IH e]; cbn; intros Hs.
  - apply Hf.
  - now split.
  - split; [trivial|]. intros r e'. destruct (Hs r e') as [H1 H2].
    destruct (IH r e' H2) as [I1 I2]. split; [auto|assumption].
Qed.

Lemma carried_bind {A B} (m : Async A) (f : A -> Async B) :
  carried P m -> (forall a, carried P (f a)) -> carried P (bind m f).
Proof.
  intros Hm Hf e. destruct (Hm e) as [M1 M2].
  destruct (bindStep_carries (m e) f Hf M2) as [B1 B2].
  split; [intros H; apply B1; now apply M1|exact B2].
Qed.

Lemma carried_sync (f : Env -> Env) :
  (forall e, P e -> P (f e)) -> carried P (sync f).
Proof. intros H e. split; [apply H|exact I]. Qed.

Lemma carried_ret {A} (a : A) : carried P (ret a).
Proof. intros e. now split. Qed.

Lemma carried_reading {A B} (get : Env -> A) (f : A -> Async B) :
  (forall a, carried P (f a)) -> carried P (reading get f).
Proof. intros H e. apply H. Qed.

Lemma carried_await c callback :
  (forall cb, callback = Some cb -> forall msg e, P e -> P (cb msg e)) ->
  carried P (await_git c callback).
Proof.
  intros H e. split; [trivial|]. cbn. intros [files|msg] e'; cbn.
  - now split.
  - split; [|exact I]. destruct callback as [cb|]; [|trivial].
    now apply (H cb).
Qed.

Ltac carried_tac :=
  repeat match goal with
         | |- forall _, _ => intros
         | |- carried _ (bind _ _) => apply carried_bind
         | |- carried _ (ret _) => apply carried_ret
         | |- carried _ (reading _ _) => apply carried_reading
         | |- carried _ (await_git _ None) =>
             apply carried_await; discriminate
         | |- carried _ (await_git _ (Some _)) =>
             apply carried_await; intros ? [= <-] ? ? ?;
             now apply (closed_displayError host P closed)
         | |- carried _ (sync (ObsidianGit.setState _ _)) =>
             apply carried_sync; intros ? ?;
             now apply (closed_setState host P closed)
         | |- carried _ (sync (ObsidianGit.displayMessage _ _)) =>
             apply carried_sync; intros ? ?;
             now apply (closed_displayMessage host P closed)
         | |- carried _ (sync (if ?b then _ else _)) => destruct b
         | |- carried _ (sync (fun e => with_lastUpdate _ e)) =>
             apply carried_sync; intros ? ?;
             now apply (closed_lastUpdate host P closed)
         | |- carried _ (if ?b then _ else _) => destruct b
         end.

Lemma createBackup_carried : carried P (ObsidianGit.createBackup host).
Proof.
  unfold ObsidianGit.createBackup, ObsidianGit.getFilesChanged,
    ObsidianGit.add, ObsidianGit.commit, ObsidianGit.push,
    ObsidianGit.formatCommitMessage.
  carried_tac.
Qed.

Lemma pullCommand_carried : carried P (ObsidianGit.pullCommand host).
Proof.
  unfold ObsidianGit.pullCommand, ObsidianGit.pullChangesFromRemote,
    ObsidianGit.pull.
  carried_tac.
Qed.

Lemma pushCommand_carried : carried P (ObsidianGit.pushCommand host).
Proof.
  unfold ObsidianGit.pushCommand, ObsidianGit.getFilesChanged.
  carried_tac. apply createBackup_carried.
Qed.

End Carrying.

(** ** The invariants of the system *)

Section Sound.
Variable host : Host.

Lemma env_spawn st s : env (Loop.spawn st s) = stops st.
Proof. now destruct st as [[a|x] e|c k e]. Qed.

Lemma spawn_orderly st s :
  (forall P, method_closed host P -> carries P st) ->
  orderly host s -> orderly host (Loop.spawn st s).
Proof.
  intros C O P HP. specialize (C P HP). specialize (O P HP).
  destruct st as [[a|x] e|c k e]; cbn [Loop.spawn pending Loop.with_env];
    try assumption.
  apply Forall_app. split; [assumption|].
  constructor; [|constructor]. exact C.
Qed.

Lemma fire_orderly t s : orderly host s -> orderly host (Loop.fire host t s).
Proof.
  intros O. unfold Loop.fire. destruct (action t); try exact O.
  apply spawn_orderly; [|exact O].
  intros P HP. apply (createBackup_carried host P HP).
Qed.

Lemma step_orderly ev s : orderly host s -> orderly host (Loop.step host ev s).
Proof.
  intros O. destruct ev as [| | |value|i r]; cbn [Loop.step].
  - rewrite tick_unfold.
    apply (turns_invariant host (orderly host) (fun _ => True)).
    + intros s' t O' _. now apply fire_orderly.
    + apply Forall_forall. trivial.
    + exact O.
  - apply spawn_orderly; [|exact O].
    intros P HP. apply (pullCommand_carried host P HP).
  - apply spawn_orderly; [|exact O].
    intros P HP. apply (pushCommand_carried host P HP).
  - exact O.
  - destruct (nth_error (pending s) i) as [p|] eqn:E; [|exact O].
    apply spawn_orderly.
    + intros P HP. apply nth_error_In in E.
      specialize (O P HP). rewrite Forall_forall in O. now apply O.
    + intros P HP. cbn [pending]. apply remove_nth_Forall. now apply O.
Qed.

(** The environment after a step that is not a tick, when [P] is kept by
    the methods and by the interval field. *)
Lemma step_carries P ev s :
  method_closed host P -> orderly host s ->
  (forall value e,
     P e -> P (ObsidianGitSettingsTab.intervalOnChange host value e)) ->
  ev <> Tick -> P (env s) -> P (env (Loop.step host ev s)).
Proof.
  intros HP O HI N H. destruct ev as [| | |value|i r]; cbn [Loop.step].
  - now destruct N.
  - rewrite env_spawn. now apply (pullCommand_carried host P HP).
  - rewrite env_spawn. now apply (pushCommand_carried host P HP).
  - now apply HI.
  - destruct (nth_error (pending s) i) as [p|] eqn:E; [|exact H].
    rewrite env_spawn. apply nth_error_In in E.
    specialize (O P HP). rewrite Forall_forall in O. now apply O.
Qed.

(** *** The handle of the backup timer *)

Lemma named_frame e e' :
  window e' = window e -> intervalID e' = intervalID e ->
  interval_named e -> interval_named e'.
Proof. unfold interval_named. intros -> ->. trivial. Qed.

Lemma statusBar_displayMessage_named m t e :
  interval_named e ->
  interval_named (ObsidianGit.statusBar_displayMessage m t e).
Proof.
  intros H. unfold ObsidianGit.statusBar_displayMessage,
    StatusBar.displayMessage.
  destruct (negb _ && _); [|now apply (named_frame e)].
  intros id I. cbn in I. destruct (H id I) as [L U]. cbn. split; [lia|].
  intros u Hu E. apply in_app_or in Hu as [Hu|[<-|[]]]; [now apply U|].
  cbn in E. lia.
Qed.

Lemma displayMessage_named m t e :
  interval_named e -> interval_named (ObsidianGit.displayMessage m t e).
Proof.
  intros H. unfold ObsidianGit.displayMessage.
  apply (named_frame
           (ObsidianGit.statusBar_displayMessage (JS.toLowerCase m) t e)).
  - now destruct (negb _).
  - now destruct (negb _).
  - now apply statusBar_displayMessage_named.
Qed.

Lemma displayError_named m t e :
  interval_named e -> interval_named (ObsidianGit.displayError m t e).
Proof.
  intros H. apply statusBar_displayMessage_named.
  now apply (named_frame e).
Qed.

Lemma rearm_named t e :
  interval_named e ->
  interval_named (with_window (Timers.rearm t (window e)) e).
Proof.
  intros H id I. cbn in I. destruct (H id I) as [L U]. split; [exact L|].
  intros u Hu E. cbn [window with_window] in Hu.
  apply rearm_In in Hu as [[Hu _]|[u0 [p [Hu0 [_ [_ ->]]]]]].
  - now apply U.
  - rewrite has_action_rearmed. now apply U.
Qed.

Lemma disableAutoBackup_named e :
  interval_named e -> interval_named (snd (ObsidianGit.disableAutoBackup e)).
Proof.
  intros H. unfold ObsidianGit.disableAutoBackup.
  destruct (truthy (intervalID e)); [|exact H].
  destruct (intervalID e) as [id0|] eqn:I0; [|exact H]. cbn [snd].
  intros id I. cbn in I. rewrite I0 in I. rewrite <- I0 in I.
  destruct (H id I) as [L U]. split; [exact L|].
  intros u Hu E. cbn in Hu. apply filter_In in Hu as [Hu _]. now apply U.
Qed.

Lemma enableAutoBackup_named e :
  timers_tracked e -> interval_named (ObsidianGit.enableAutoBackup e).
Proof.
  intros T id I. unfold ObsidianGit.enableAutoBackup in *.
  cbn in I. injection I as <-. cbn. split; [lia|].
  intros u Hu E. apply in_app_or in Hu as [Hu|[<-|[]]]; [|reflexivity].
  pose proof (handles_bounded e T u Hu). lia.
Qed.

Lemma intervalOnChange_named value e :
  timers_tracked e -> interval_named e ->
  interval_named (ObsidianGitSettingsTab.intervalOnChange host value e).
Proof.
  intros T H. unfold ObsidianGitSettingsTab.intervalOnChange.
  destruct (Number host value) as [n|]; [|now apply (named_frame e)].
  cbn zeta. set (e1 := saveData _).
  assert (T1 : timers_tracked e1) by now apply (tracked_frame e).
  assert (H1 : interval_named e1) by now apply (named_frame e).
  destruct (0 <? autoSaveInterval (settings e1))%Z.
  - apply (named_frame
             (ObsidianGit.enableAutoBackup
                (snd (ObsidianGit.disableAutoBackup e1))));
      [reflexivity|reflexivity|].
    apply enableAutoBackup_named.
    now apply (disableAutoBackup_clears e1 T1).
  - destruct (_ && _); [|exact H1].
    pose proof (disableAutoBackup_named e1 H1) as H2.
    destruct (ObsidianGit.disableAutoBackup e1) as [[|] e2]; cbn [snd] in H2;
      [now apply (named_frame e2)|exact H2].
Qed.

(** The timers stay tracked and the handle well named. *)
Lemma closed_tracked :
  method_closed host (fun e => timers_tracked e /\ interval_named e).
Proof.
  constructor.
  - intros st e [T H]. split; [now apply setState_tracked|].
    now apply (named_frame e).
  - intros m t e [T H].
    split; [now apply displayMessage_tracked|now apply displayMessage_named].
  - intros m t e [T H].
    split; [now apply displayError_tracked|now apply displayError_named].
  - intros t e [T H].
    split; [now apply (tracked_frame e)|now apply (named_frame e)].
Qed.

Lemma fire_tracked t s :
  timers_tracked (env s) /\ interval_named (env s) ->
  timers_tracked (env (Loop.fire host t s)) /\
  interval_named (env (Loop.fire host t s)).
Proof.
  intros [T H]. unfold Loop.fire.
  pose proof (rearm_tracked t (env s) T) as T'.
  pose proof (rearm_named t (env s) H) as H'.
  set (e' := with_window _ _) in *.
  destruct (action t).
  - split; [now apply (tracked_frame e')|now apply (named_frame e')].
  - split; [now apply (tracked_frame e')|now apply (named_frame e')].
  - rewrite env_spawn.
    now apply (createBackup_carried host _ closed_tracked).
Qed.

Lemma step_sound ev s : sound host s -> sound host (Loop.step host ev s).
Proof.
  intros [T [H O]].
  assert (K : timers_tracked (env (Loop.step host ev s)) /\
              interval_named (env (Loop.step host ev s))).
  { destruct ev as [| | |value|i r].
    - cbn [Loop.step]. rewrite tick_unfold.
      apply (turns_invariant host
               (fun s' => timers_tracked (env s') /\ interval_named (env s'))
               (fun _ => True)).
      + intros s' t K _. now apply fire_tracked.
      + apply Forall_forall. trivial.
      + split.
        * destruct T as [P B D N]. now constructor.
        * exact H.
    - apply step_carries; try assumption; try discriminate;
        [apply closed_tracked| |now split].
      intros value e [T' H'].
      split; [now apply intervalOnChange_tracked
             |now apply intervalOnChange_named].
    - apply step_carries; try assumption; try discriminate;
        [apply closed_tracked| |now split].
      intros value e [T' H'].
      split; [now apply intervalOnChange_tracked
             |now apply intervalOnChange_named].
    - apply step_carries; try assumption; try discriminate;
        [apply closed_tracked| |now split].
      intros value' e [T' H'].
      split; [now apply intervalOnChange_tracked
             |now apply intervalOnChange_named].
    - apply step_carries; try assumption; try discriminate;
        [apply closed_tracked| |now split].
      intros value e [T' H'].
      split; [now apply intervalOnChange_tracked
             |now apply intervalOnChange_named]. }
  destruct K as [T' H']. split; [exact T'|]. split; [exact H'|].
  now apply step_orderly.
Qed.

Lemma steps_sound evs s : sound host s -> sound host (Loop.steps host evs s).
Proof.
  revert s. induction evs as [|ev evs IH]; intros s W; [assumption|].
  cbn. apply IH. now apply step_sound.
Qed.

End Sound.

(** ** The reset of a message *)

Section Resets.
Variable host : Host.

Lemma tids_inj l t u :
  NoDup (map tid l) -> In t l -> In u l -> tid t = tid u -> t = u.
Proof.
  induction l as [|x l IH]; cbn [map]; intros D Ht Hu E; [destruct Ht|].
  inversion D as [|? ? Hx Dl]; subst.
  destruct Ht as [<-|Ht], Hu as [<-|Hu]; [reflexivity| | |now apply IH].
  - exfalso. apply Hx. rewrite E. now apply in_map.
  - exfalso. apply Hx. rewrite <- E. now apply in_map.
Qed.

(** *** The clock *)

Lemma closed_now n : method_closed host (fun e => now (window e) = n).
Proof.
  constructor; try (intros; assumption).
  - intros m t e H. unfold ObsidianGit.displayMessage,
      ObsidianGit.statusBar_displayMessage, StatusBar.displayMessage.
    destruct (negb (t =? 0)%Z && (0 <? t)%Z);
      cbn [with_window with_statusBar settings];
      destruct (negb (disablePopups (settings e))); exact H.
  - intros m t e H. unfold ObsidianGit.displayError,
      ObsidianGit.statusBar_displayMessage, StatusBar.displayMessage.
    destruct (negb (t =? 0)%Z && (0 <? t)%Z); exact H.
Qed.

Lemma intervalOnChange_now value e :
  now (window (ObsidianGitSettingsTab.intervalOnChange host value e)) =
  now (window e).
Proof.
  unfold ObsidianGitSettingsTab.intervalOnChange.
  destruct (Number host value) as [n|]; [|reflexivity].
  cbn zeta. set (e1 := saveData _).
  change (now (window e)) with (now (window e1)).
  unfold ObsidianGit.enableAutoBackup, ObsidianGit.disableAutoBackup.
  destruct (0 <? autoSaveInterval (settings e1))%Z.
  - destruct (truthy (intervalID e1)); [destruct (intervalID e1)|];
      reflexivity.
  - destruct (_ && _); [|reflexivity].
    destruct (truthy (intervalID e1)); [destruct (intervalID e1)|];
      reflexivity.
Qed.

(** A tick moves the clock by one millisecond; no other event moves it. *)
Lemma step_now ev s :
  orderly host s ->
  now (window (env (Loop.step host ev s))) =
  (now (window (env s)) + match ev with Tick => 1 | _ => 0 end)%Z.
Proof.
  intros O. destruct ev as [| | |value|i r] eqn:E;
    try (rewrite Z.add_0_r; rewrite <- E;
         apply (step_carries host (fun e => now (window e) =
                                           now (window (env s))));
         [apply closed_now|exact O
         |intros v e' H; now rewrite intervalOnChange_now
         |subst ev; discriminate|reflexivity]).
  apply tick_now.
Qed.

Lemma step_now_le ev s :
  orderly host s ->
  (now (window (env s)) <= now (window (env (Loop.step host ev s))))%Z.
Proof. intros O. rewrite step_now by assumption. destruct ev; lia. Qed.

(** *** An armed timer stays armed until it is due *)

Lemma closed_armed R : method_closed host (fun e => In R (timers (window e))).
Proof.
  constructor; try (intros; assumption).
  - intros m t e H. unfold ObsidianGit.displayMessage,
      ObsidianGit.statusBar_displayMessage, StatusBar.displayMessage.
    destruct (negb (t =? 0)%Z && (0 <? t)%Z);
      cbn [with_window with_statusBar settings];
      destruct (negb (disablePopups (settings e))); cbn;
      try exact H; apply in_or_app; now left.
  - intros m t e H. unfold ObsidianGit.displayError,
      ObsidianGit.statusBar_displayMessage, StatusBar.displayMessage.
    destruct (negb (t =? 0)%Z && (0 <? t)%Z); cbn;
      try exact H; apply in_or_app; now left.
Qed.

(** The interval field clears the backup timer only. *)
Lemma intervalOnChange_keeps R value e :
  interval_named e -> has_action RunBackup R = false ->
  In R (timers (window e)) ->
  In R (timers (window
                  (ObsidianGitSettingsTab.intervalOnChange host value e))).
Proof.
  intros H A HR. unfold ObsidianGitSettingsTab.intervalOnChange.
  destruct (Number host value) as [n|]; [|exact HR].
  cbn zeta. set (e1 := saveData _).
  assert (H1 : interval_named e1) by now apply (named_frame e).
  assert (R1 : In R (timers (window e1))) by exact HR.
  assert (K : In R (timers (window
                              (snd (ObsidianGit.disableAutoBackup e1))))).
  { unfold ObsidianGit.disableAutoBackup.
    destruct (truthy (intervalID e1)); [|exact R1].
    destruct (intervalID e1) as [id|] eqn:I; [|exact R1].
    cbn. apply filter_In. split; [exact R1|].
    destruct (Z.eqb_spec (tid R) id) as [E|]; [|reflexivity].
    destruct (H1 id I) as [_ U]. rewrite (U R R1 E) in A. discriminate. }
  destruct (0 <? autoSaveInterval (settings e1))%Z.
  - unfold ObsidianGit.enableAutoBackup. cbn. apply in_or_app. now left.
  - destruct (_ && _); [|exact R1].
    destruct (ObsidianGit.disableAutoBackup e1) as [[|] e2]; exact K.
Qed.

Lemma tick_keeps R s :
  timers_tracked (env s) -> In R (timers (window (env s))) ->
  (now (window (env s)) + 1 < due R)%Z ->
  In R (timers (window (env (Loop.tick host s)))).
Proof.
  intros T HR D. rewrite tick_unfold.
  apply (turns_invariant host
           (fun s' => In R (timers (window (env s'))))
           (fun t => tid R <> tid t)).
  - intros s' t H N. rewrite fire_window. now apply rearm_keeps.
  - apply Forall_forall. intros t Ht. apply filter_In in Ht as [Ht Hd].
    intros E.
    assert (X : R = t)
      by (apply (tids_inj (timers (window (env s)))); auto; apply T).
    subst t. unfold Timers.is_due in Hd. apply Z.leb_le in Hd.
    cbn in Hd. lia.
  - exact HR.
Qed.

Lemma closed_and P Q :
  method_closed host P -> method_closed host Q ->
  method_closed host (fun e => P e /\ Q e).
Proof.
  intros [P1 P2 P3 P4] [Q1 Q2 Q3 Q4].
  constructor; intros; split; intuition auto.
Qed.

Lemma step_keeps R ev s :
  sound host s -> has_action RunBackup R = false ->
  In R (timers (window (env s))) ->
  (now (window (env (Loop.step host ev s))) < due R)%Z ->
  In R (timers (window (env (Loop.step host ev s)))).
Proof.
  intros [T [H O]] A HR D.
  assert (X : ev = Tick \/ ev <> Tick)
    by (destruct ev; (now left) || (right; discriminate)).
  destruct X as [->|N].
  - cbn [Loop.step] in *. rewrite tick_now in D. now apply tick_keeps.
  - apply (step_carries host
             (fun e => (timers_tracked e /\ interval_named e) /\
                       In R (timers (window e)))); try assumption.
    + apply closed_and; [apply closed_tracked|apply closed_armed].
    + intros value e [[T' H'] R'].
      split; [split|].
      * now apply intervalOnChange_tracked.
      * now apply intervalOnChange_named.
      * now apply intervalOnChange_keeps.
    + split; [split|]; assumption.
Qed.

Lemma steps_snoc evs ev s :
  Loop.steps host (evs ++ [ev]) s = Loop.step host ev (Loop.steps host evs s).
Proof. unfold Loop.steps. now rewrite fold_left_app. Qed.

Lemma steps_keeps R evs s :
  sound host s -> has_action RunBackup R = false ->
  In R (timers (window (env s))) ->
  (now (window (env (Loop.steps host evs s))) < due R)%Z ->
  In R (timers (window (env (Loop.steps host evs s)))).
Proof.
  intros W A HR. induction evs as [|ev evs IH] using rev_ind;
    [trivial|].
  rewrite steps_snoc. intros D.
  pose proof (steps_sound host evs s W) as W'.
  pose proof (step_now_le ev (Loop.steps host evs s)
                          (proj2 (proj2 W'))) as L.
  apply step_keeps; try assumption. apply IH. lia.
Qed.

(** *** The tick at which a reset is due *)

Lemma fire_flag_down t s :
  flag s = false -> flag (Loop.fire host t s) = false.
Proof.
  intros F. destruct (has_action ResetMessage t) eqn:A.
  - now apply fire_reset_flag.
  - destruct (fire_flag host t s A) as [-> _]. exact F.
Qed.

Lemma turns_flag_down l s :
  flag s = false -> flag (fold_left (Loop.turn host) l s) = false.
Proof.
  apply (turns_invariant host (fun s' => flag s' = false) (fun _ => True)).
  - intros s' t F _. now apply fire_flag_down.
  - apply Forall_forall. trivial.
Qed.

Lemma turns_fire_reset R l :
  has_action ResetMessage R = true ->
  (forall t, In t l -> t = R \/ tid R <> tid t) ->
  forall s, In R (timers (window (env s))) -> In R l ->
            flag (fold_left (Loop.turn host) l s) = false.
Proof.
  intros A. induction l as [|t l IH]; intros C s HR Hl; [destruct Hl|].
  cbn [fold_left].
  destruct (C t (or_introl eq_refl)) as [->|N].
  - apply turns_flag_down. unfold Loop.turn.
    assert (Ar : Timers.armed (tid R) (window (env s)) = true).
    { unfold Timers.armed. apply existsb_exists.
      exists R. split; [assumption|apply Z.eqb_refl]. }
    rewrite Ar. now apply fire_reset_flag.
  - apply IH.
    + intros u Hu. apply C. now right.
    + unfold Loop.turn. destruct (Timers.armed _ _); [|exact HR].
      rewrite fire_window. now apply rearm_keeps.
    + destruct Hl as [E|Hl]; [|exact Hl]. now destruct N; rewrite E.
Qed.

(** At the tick at which a reset is due, it fires, and the flag is down
    when the tick is over. *)
Lemma tick_fires R s :
  timers_tracked (env s) -> has_action ResetMessage R = true ->
  In R (timers (window (env s))) ->
  (due R <= now (window (env s)) + 1)%Z ->
  flag (Loop.tick host s) = false.
Proof.
  intros T A HR D. rewrite tick_unfold.
  apply (turns_fire_reset R); try assumption.
  - intros t Ht. apply filter_In in Ht as [Ht _].
    destruct (Z.eq_dec (tid R) (tid t)) as [E|N]; [left|now right].
    symmetry. apply (tids_inj (timers (window (env s)))); auto. apply T.
  - apply filter_In. split; [assumption|].
    unfold Timers.is_due. apply Z.leb_le. cbn. lia.
Qed.

(** *** Nothing but a reset lowers the flag *)

Lemma closed_flag :
  method_closed host (fun e => isDisplayingMessage (statusBar e) = true).
Proof.
  constructor; try (intros; assumption).
  - intros st e H. unfold ObsidianGit.setState, ObsidianGit.refreshStatusBar.
    cbn [statusBar with_statusBar]. now rewrite displayState_flag.
  - intros m t e H. unfold ObsidianGit.displayMessage,
      ObsidianGit.statusBar_displayMessage, StatusBar.displayMessage.
    destruct (negb (t =? 0)%Z && (0 <? t)%Z);
      cbn [with_window with_statusBar settings];
      destruct (negb (disablePopups (settings e))); reflexivity.
  - intros m t e H. unfold ObsidianGit.displayError,
      ObsidianGit.statusBar_displayMessage, StatusBar.displayMessage.
    destruct (negb (t =? 0)%Z && (0 <? t)%Z); reflexivity.
Qed.

Lemma intervalOnChange_statusBar value e :
  statusBar (ObsidianGitSettingsTab.intervalOnChange host value e) =
  statusBar e.
Proof.
  unfold ObsidianGitSettingsTab.intervalOnChange.
  destruct (Number host value) as [n|]; [|reflexivity].
  cbn zeta. set (e1 := saveData _).
  change (statusBar e) with (statusBar e1).
  unfold ObsidianGit.enableAutoBackup, ObsidianGit.disableAutoBackup.
  destruct (0 <? autoSaveInterval (settings e1))%Z.
  - destruct (truthy (intervalID e1)); [destruct (intervalID e1)|];
      reflexivity.
  - destruct (_ && _); [|reflexivity].
    destruct (truthy (intervalID e1)); [destruct (intervalID e1)|];
      reflexivity.
Qed.

Lemma step_flag ev s :
  orderly host s -> flag s = true ->
  armed_for ResetMessage (env s) = [] ->
  flag (Loop.step host ev s) = true.
Proof.
  intros O F A.
  assert (X : ev = Tick \/ ev <> Tick)
    by (destruct ev; (now left) || (right; discriminate)).
  destruct X as [->|N].
  - cbn [Loop.step]. destruct (tick_without_reset host s F A) as [_ B].
    unfold flag in *. now rewrite B.
  - apply (step_carries host
             (fun e => isDisplayingMessage (statusBar e) = true));
      try assumption.
    + apply closed_flag.
    + intros value e H. now rewrite intervalOnChange_statusBar.
Qed.

(** A message with a positive timeout arms its reset. *)
Lemma displayed_reset s message d :
  sound host s -> (0 < d)%Z ->
  let s1 := Loop.with_env
              (ObsidianGit.statusBar_displayMessage message d (env s)) s in
  sound host s1 /\ flag s1 = true /\
  now (window (env s1)) = now (window (env s)) /\
  In (mkTimer (nextId (window (env s))) (now (window (env s)) + d) None
              ResetMessage)
     (timers (window (env s1))).
Proof.
  intros [T [H O]] D. cbn zeta. split; [split; [|split]|].
  - now apply statusBar_displayMessage_tracked.
  - now apply statusBar_displayMessage_named.
  - exact O.
  - unfold flag, ObsidianGit.statusBar_displayMessage,
      StatusBar.displayMessage.
    destruct (Z.eqb_spec d 0) as [|_]; [lia|].
    destruct (Z.ltb_spec 0 d) as [_|]; [|lia].
    cbn. split; [reflexivity|]. split; [reflexivity|].
    apply in_or_app. right. left.
    unfold Timers.delay_of. now rewrite Z.max_r by lia.
Qed.

End Resets.

Section Messages.
Variable host : Host.


End Messages.

(** The plugin that has loaded, with nothing under way, is sound. *)
Lemma booted_sound host s : sound host (Sample.system (Sample.booted s)).
Proof.
  split; [apply booted_tracked|]. split; [|intros P _; constructor].
  unfold Sample.system, Sample.booted. cbn [env].
  set (e0 := ObsidianGit.setState Sample.host PluginState.idle
                                  (Sample.fresh s)).
  assert (T0 : timers_tracked e0).
  { constructor; cbn; [reflexivity|intros t []|constructor|intros t []]. }
  assert (H1 : interval_named
                 (if (0 <? autoSaveInterval (settings e0))%Z
                  then ObsidianGit.enableAutoBackup e0 else e0)).
  { destruct (0 <? autoSaveInterval (settings e0))%Z.
    - now apply enableAutoBackup_named.
    - intros id I. discriminate I. }
  set (e1 := if (0 <? autoSaveInterval (settings e0))%Z
             then ObsidianGit.enableAutoBackup e0 else e0) in *.
  intros id I. cbn in I. destruct (H1 id I) as [L U]. cbn. split; [lia|].
  intros u Hu E. apply in_app_or in Hu as [Hu|[<-|[]]]; [now apply U|].
  cbn in E. lia.
Qed.

